(** * e621_python: the request gate, paginated search and pool reconciliation

    A shallow embedding of [main.py].  Python integers are [Z], strings are
    [string], the untyped [list] fields of the dataclasses hold what the
    remote service sends there (tag names, numeric ids).

    An operation of [ESix] yields the trace of what it did to the outside,
    passages through the limiter and requests with their responses,
    together with its return value or the exception it raised.  The remote
    service is a function from requests to responses; no operation issues
    a request twice ([requests_distinct]), so such a function can play any
    sequence of answers.  A response body stands for the JSON it holds,
    sorted by the shape the client decodes; decoding proper ([json.loads],
    [from_dict]) lies outside, an entry that does not decode is [None].

    The limiter is kept as the event of passing it: what it does with the
    lock and the clock is not part of the trace. *)

From Stdlib Require Import ZArith Ascii String List Finite Sorted Bool Lia
  DecimalString.
From Equations Require Import Equations.
Import ListNotations.

Local Open Scope string_scope.
Local Open Scope Z_scope.
Local Open Scope list_scope.

Set Implicit Arguments.

(** Equality of the field types is decidable. *)
Definition option_string_eq_dec (x y : option string) : {x = y} + {x <> y}.
Proof. decide equality; apply string_dec. Defined.

Definition option_Z_eq_dec (x y : option Z) : {x = y} + {x <> y}.
Proof. decide equality; apply Z.eq_dec. Defined.

Definition list_string_eq_dec : forall x y : list string, {x = y} + {x <> y} :=
  list_eq_dec string_dec.

Definition list_Z_eq_dec : forall x y : list Z, {x = y} + {x <> y} :=
  list_eq_dec Z.eq_dec.

Create HintDb eqdec.
#[local] Hint Resolve Z.eq_dec string_dec bool_dec option_string_eq_dec
  option_Z_eq_dec list_string_eq_dec list_Z_eq_dec : eqdec.

(** ** Dataclasses *)

Module File.
Record t := mk {
  width : Z;
  height : Z;
  url : option string;
  ext : string;
  size : Z;
  md5 : string;
  has : bool }.

Definition eq_dec (x y : t) : {x = y} + {x <> y}.
Proof. decide equality; auto with eqdec. Defined.
End File.

Module Score.
Record t := mk {
  up : Z;
  down : Z;
  total : Z }.

Definition eq_dec (x y : t) : {x = y} + {x <> y}.
Proof. decide equality; apply Z.eq_dec. Defined.
End Score.

Module Tags.
Record t := mk {
  general : list string;
  species : list string;
  character : list string;
  copyright : list string;
  artist : list string;
  invalid : list string;
  lore : list string;
  meta : list string }.

(** [list(chain(...))]: the categories in the order the property lists
    them. *)
Definition all (self : t) : list string :=
  general self ++ species self ++ character self ++ copyright self
    ++ artist self ++ invalid self ++ lore self ++ meta self.

Definition eq_dec (x y : t) : {x = y} + {x <> y}.
Proof. decide equality; auto with eqdec. Defined.
End Tags.

Module Flags.
Record t := mk {
  pending : bool;
  flagged : bool;
  note_locked : bool;
  status_locked : bool;
  rating_locked : bool;
  deleted : bool }.

Definition eq_dec (x y : t) : {x = y} + {x <> y}.
Proof. decide equality; apply bool_dec. Defined.
End Flags.

Module Relationships.
Record t := mk {
  parent_id : option Z;
  has_children : bool;
  has_active_children : bool;
  children : list Z }.

Definition eq_dec (x y : t) : {x = y} + {x <> y}.
Proof. decide equality; auto with eqdec. Defined.
End Relationships.

(** [duration: int | float | None].  A float is kept as its binary64 bit
    pattern; nothing below computes with it. *)
Inductive Duration :=
| DurationNone
| DurationInt (z : Z)
| DurationFloat (bits : Z).

Definition Duration_eq_dec (x y : Duration) : {x = y} + {x <> y}.
Proof. decide equality; apply Z.eq_dec. Defined.

Module Post.
Record t := mk {
  id : Z;
  created_at : string;
  updated_at : string;
  file : File.t;
  preview : File.t;
  sample : File.t;
  score : Score.t;
  tags : Tags.t;
  locked_tags : list string;
  change_seq : Z;
  flags : Flags.t;
  rating : string;
  fav_count : Z;
  sources : list string;
  pools : list Z;
  relationships : Relationships.t;
  approver_id : option Z;
  uploader_id : Z;
  description : string;
  comment_count : Z;
  is_favorited : bool;
  has_notes : bool;
  duration : Duration }.

(** The [__eq__] a dataclass generates compares the two records field by
    field; [list.remove] in [search] relies on it. *)
Definition eq_dec (x y : t) : {x = y} + {x <> y}.
Proof.
  decide equality;
    auto using File.eq_dec, Score.eq_dec, Tags.eq_dec, Flags.eq_dec,
      Relationships.eq_dec, Duration_eq_dec with eqdec.
Defined.
End Post.

(** The dataclass [List]: a mutable record around the list of posts. *)
Module PostList.
Record t := mk { posts : list Post.t }.
End PostList.

Module Pool.
Record t := mk {
  id : Z;
  name : string;
  created_at : string;
  updated_at : option string;
  creator_id : Z;
  description : string;
  is_active : bool;
  category : string;
  is_deleted : bool;
  post_ids : list Z;
  creator_name : string;
  post_count : Z;
  posts : list Post.t }.

(** The assignment [pool.posts = v]. *)
Definition set_posts (pool : t) (v : list Post.t) : t :=
  mk (id pool) (name pool) (created_at pool) (updated_at pool)
     (creator_id pool) (description pool) (is_active pool) (category pool)
     (is_deleted pool) (post_ids pool) (creator_name pool) (post_count pool)
     v.
End Pool.

Module Wiki.
Record t := mk {
  id : Z;
  created_at : option string;
  updated_at : option string;
  title : option string;
  body : option string;
  creator_id : option Z;
  is_locked : bool;
  updater_id : option Z;
  is_deleted : bool;
  other_names : list string;
  creator_name : option string;
  category_name : Z }.
End Wiki.

Module E621Error.
Record t := mk {
  success : bool;
  reason : option string;
  code : option Z;
  message : string }.

(** [E621Error(success, reason)] with the remaining fields at their
    defaults. *)
Definition make (success : bool) (reason : string) : t :=
  mk success (Some reason) None "".
End E621Error.

(** ** Exceptions, results and the trace *)

(** What an operation can raise: the API error; [ValueError] as
    [list.remove] raises it; and under [OtherException] whatever else is
    raised on a body of another shape, by [json.loads] and [decode] (whose
    errors are themselves subclasses of [ValueError]), by a missing key or
    index, or by [from_dict]. *)
Inductive exn :=
| E621 (e : E621Error.t)
| ValueError
| OtherException.

Inductive Result (A : Type) :=
| Ok (a : A)
| Raise (e : exn).
Arguments Raise {A} e.

(** An argument formatted into a URL: a [str] or an [int]. *)
Inductive value :=
| VStr (s : string)
| VInt (z : Z).

(** A URL as the f-string that builds it: literal text, formatted holes, and
    the argument of [urlencode]. *)
Inductive fpart :=
| Lit (s : string)
| Fmt (v : value)
| UrlEncode (params : list (string * value)).

(** [pool_manager.request('GET', url)]. *)
Definition Request := list fpart.

(** The JSON body of a response, by the shape that decodes it. *)
Inductive Body :=
| JsonError (e : E621Error.t)
| JsonPost (post : option Post.t)
| JsonPosts (posts : list (option Post.t))
| JsonPools (pools : list (option Pool.t))
| JsonWiki (wiki : Wiki.t)
| JsonOther.

Record Response := mkResponse {
  status : Z;
  data : Body }.

Inductive Event :=
| Acquire
| Network (req : Request) (resp : Response).

(** An operation: the events it caused, in order, and how it ended. *)
Definition M (A : Type) : Type := (list Event * Result A)%type.

Class Monad (m : Type -> Type) := {
  ret : forall {A}, A -> m A;
  bind : forall {A B}, m A -> (A -> m B) -> m B;
  raise : forall {A}, exn -> m A }.

#[global] Instance Monad_Result : Monad Result := {
  ret := fun A a => Ok a;
  bind := fun A B r k => match r with Ok a => k a | Raise e => Raise e end;
  raise := fun A e => Raise e }.

#[global] Instance Monad_M : Monad M := {
  ret := fun A a => ([], Ok a);
  bind := fun A B m k =>
    match m with
    | (t, Ok a) => let (t', r) := k a in (t ++ t', r)
    | (t, Raise e) => (t, Raise e)
    end;
  raise := fun A e => ([], Raise e) }.

Notation "x <- m ;; k" := (bind m (fun x => k))
  (at level 61, m at next level, right associativity).
Notation "m ;; k" := (bind m (fun _ => k))
  (at level 61, right associativity).

(** A pure step inside an operation. *)
Definition lift {A} (r : Result A) : M A := ([], r).

Definition events {A} (m : M A) : list Event := fst m.
Definition outcome {A} (m : M A) : Result A := snd m.

(** ** The client *)

(** [list.remove(x)]: drops the first element equal to [x], [ValueError]
    when there is none. *)
Fixpoint list_remove (x : Post.t) (l : list Post.t) : Result (list Post.t) :=
  match l with
  | [] => raise ValueError
  | y :: l' =>
      if Post.eq_dec y x then ret l'
      else l'' <- list_remove x l' ;; ret (y :: l'')
  end.

(** [item in blacklist]. *)
Definition contains (blacklist : list string) (item : string) : bool :=
  existsb (fun b => String.eqb b item) blacklist.

(** [from_dict(List, {"posts": posts})]: every entry has to decode. *)
Fixpoint from_dict_posts (posts : list (option Post.t)) : Result (list Post.t) :=
  match posts with
  | [] => ret []
  | None :: _ => raise OtherException
  | Some p :: posts' => ps <- from_dict_posts posts' ;; ret (p :: ps)
  end.

Definition from_dict_List (posts : list (option Post.t)) : Result PostList.t :=
  ps <- from_dict_posts posts ;; ret (PostList.mk ps).

(** [[from_dict(Pool, x) for x in ...]]. *)
Fixpoint from_dict_pools (pools : list (option Pool.t)) : Result (list Pool.t) :=
  match pools with
  | [] => ret []
  | None :: _ => raise OtherException
  | Some p :: pools' => ps <- from_dict_pools pools' ;; ret (p :: ps)
  end.

(** [raise E621Error] on the decoded body, its keys passed as keyword
    arguments. *)
Definition raise_E621Error {A} (body : Body) : M A :=
  match body with
  | JsonError e => raise (E621 e)
  | _ => raise OtherException
  end.

(** One iteration of the second loop of [search]: the two tests are
    independent, each removes [post] from the list being returned. *)
Definition filter_step (blacklist : list string) (score : Z)
    (post : Post.t) (posts : list Post.t) : Result (list Post.t) :=
  posts1 <- (if existsb (contains blacklist) (Tags.all (Post.tags post))
             then list_remove post posts else ret posts) ;;
  if Score.total (Post.score post) <=? score
  then list_remove post posts1 else ret posts1.

(** [for post in list(search_list.posts): ...]: the loop runs over a copy
    taken before the first removal. *)
Fixpoint filter_loop (blacklist : list string) (score : Z)
    (snapshot : list Post.t) (posts : list Post.t) : Result (list Post.t) :=
  match snapshot with
  | [] => ret posts
  | post :: snapshot' =>
      posts' <- filter_step blacklist score post posts ;;
      filter_loop blacklist score snapshot' posts'
  end.

Definition filter_posts (blacklist : list string) (score : Z)
    (search_list : PostList.t) : Result PostList.t :=
  posts <- filter_loop blacklist score (PostList.posts search_list)
             (PostList.posts search_list) ;;
  ret (PostList.mk posts).

(** The two loops of [get_pool_images] over the posts [r] of the search. *)
Definition pool_images (post_ids : list Z) (r : list Post.t) : list Post.t :=
  fold_left
    (fun posts post =>
       fold_left
         (fun posts p =>
            if Flags.deleted (Post.flags p) then posts
            else if Post.id p =? post then posts ++ [p]
            else posts)
         r posts)
    post_ids [].

(** [str(n)] for an integer. *)
Definition str (n : Z) : string := NilZero.string_of_int (Z.to_int n).

(** [not query] for a [str | int]. *)
Definition falsy (query : value) : bool :=
  match query with
  | VStr s => String.eqb s ""
  | VInt z => z =? 0
  end.

Section ESix.

(** The remote service. *)
Variable server : Request -> Response.

(** [api_limiter] returns once the caller may proceed; the trace records
    that it was passed. *)
Definition api_limiter : M unit := ([Acquire], Ok tt).

Definition request (url : Request) : M Response :=
  let r := server url in ([Network url r], Ok r).

Definition post (post_id : Z) : M Post.t :=
  api_limiter ;;
  r <- request [Lit "https://e621.net/posts/"; Fmt (VInt post_id); Lit ".json"] ;;
  if negb (status r =? 200) then raise_E621Error (data r)
  else match data r with
       | JsonPost (Some p) => ret p
       | _ => raise OtherException
       end.

(** The body of the [while] loop of [search], up to the posts of the page. *)
Definition search_page (tags : list string) (url : string) (limit page : Z)
  : M (list (option Post.t)) :=
  api_limiter ;;
  let params := [("tags", VStr (String.concat " " tags));
                 ("limit", VInt limit); ("page", VInt page)] in
  r <- request [Fmt (VStr url); Lit "posts.json?"; UrlEncode params] ;;
  if negb (status r =? 200) then raise_E621Error (data r)
  else match data r with
       | JsonPosts ps => ret ps
       | _ => raise OtherException
       end.

Equations? search_loop (tags : list string) (url : string) (limit page : Z)
    (posts : list (option Post.t)) : M (list (option Post.t))
    by wf (Z.to_nat limit) lt :=
  search_loop tags url limit page posts with Z_gt_dec limit 0 := {
    | left _ =>
        ps <- search_page tags url limit page ;;
        search_loop tags url (limit - 320) (page + 1) (posts ++ ps)
    | right _ => ret posts }.
Proof. lia. Qed.

Definition search (tags : list string) (limit page : Z) (safe : bool)
    (blacklist : option (list string)) (score : Z) : M PostList.t :=
  let blacklist := match blacklist with None => [] | Some b => b end in
  let url := if negb safe then "https://e621.net/" else "https://e926.net/" in
  posts <- search_loop tags url limit page [] ;;
  search_list <- lift (from_dict_List posts) ;;
  lift (filter_posts blacklist score search_list).

Definition get_pool_images (pool : Pool.t) : M PostList.t :=
  r <- search [String.append "pool:" (str (Pool.id pool))] 1280 1 false None
         (-5000) ;;
  ret (PostList.mk (pool_images (Pool.post_ids pool) (PostList.posts r))).

Definition pool (pool_id : Z) : M Pool.t :=
  let encode := UrlEncode [("commit", VStr "search");
                           ("search[id]", VInt pool_id)] in
  r <- request [Lit "https://e621.net/pools.json/?"; encode] ;;
  if negb (status r =? 200) then raise_E621Error (data r)
  else match data r with
       | JsonPools (Some pool :: _) =>
           l <- get_pool_images pool ;;
           ret (Pool.set_posts pool (PostList.posts l))
       | _ => raise OtherException
       end.

Definition pool_search (query : string) : M (list Pool.t) :=
  api_limiter ;;
  let encode := UrlEncode [("commit", VStr "search");
                           ("search[name_matches]", VStr query)] in
  r <- request [Lit "https://e621.net/pools.json/?"; encode] ;;
  if negb (status r =? 200) then raise_E621Error (data r)
  else match data r with
       | JsonPools ps => lift (from_dict_pools ps)
       | _ => raise OtherException
       end.

Definition wiki (query : value) : M Wiki.t :=
  api_limiter ;;
  if falsy query then raise (E621 (E621Error.make false "No Query Provided"))
  else
    r <- request [Lit "https://e621.net/wiki_pages/"; Fmt query; Lit ".json"] ;;
    if negb (status r =? 200) then raise_E621Error (data r)
    else match data r with
         | JsonWiki w => ret w
         | _ => raise OtherException
         end.

End ESix.

(** * Vocabulary of the properties *)

(** Occurrences of a post in a list, by the equality of the dataclass. *)
Abbreviation count := (count_occ Post.eq_dec).

(** [any(item in blacklist for item in post.tags.all)]. *)
Definition blacklisted (blacklist : list string) (post : Post.t) : bool :=
  existsb (contains blacklist) (Tags.all (Post.tags post)).

(** [post.score.total <= score]. *)
Definition low (score : Z) (post : Post.t) : bool :=
  Score.total (Post.score post) <=? score.

(** What the filtering pass is after: neither test catches the post. *)
Definition keep (blacklist : list string) (score : Z) (post : Post.t) : bool :=
  negb (blacklisted blacklist post) && negb (low score post).

Definition b2n (b : bool) : nat := if b then 1%nat else 0%nat.

(** The requests of a trace, in the order they were issued. *)
Definition requests (t : list Event) : list Request :=
  flat_map (fun ev => match ev with Network req _ => [req] | Acquire => [] end)
    t.

(** The value a request passes to [urlencode] under [key]. *)
Definition query_param (key : string) (req : Request) : option value :=
  match req with
  | [_; _; UrlEncode params] =>
      option_map snd (find (fun kv => String.eqb (fst kv) key) params)
  | _ => None
  end.

(** The URL [search] builds for one page. *)
Definition page_request (tags : list string) (url : string) (limit page : Z)
  : Request :=
  [Fmt (VStr url); Lit "posts.json?";
   UrlEncode [("tags", VStr (String.concat " " tags));
              ("limit", VInt limit); ("page", VInt page)]].

Definition base_url (safe : bool) : string :=
  if negb safe then "https://e621.net/" else "https://e926.net/".

(** The number of iterations of [while limit > 0: ...; limit -= 320]. *)
Definition pages (limit : Z) : nat := Z.to_nat ((limit + 319) / 320).

(** How one page ends, from the response alone. *)
Definition page_outcome (r : Response) : Result (list (option Post.t)) :=
  if status r =? 200 then
    match data r with JsonPosts ps => Ok ps | _ => Raise OtherException end
  else
    match data r with JsonError e => Raise (E621 e) | _ => Raise OtherException end.

(** A page the service answers with status 200 and a list of posts. *)
Definition answers_page (r : Response) : Prop :=
  status r = 200 /\ exists ps, data r = JsonPosts ps.

Definition page_posts (r : Response) : list (option Post.t) :=
  match data r with JsonPosts ps => ps | _ => [] end.

(** The (limit, page) pairs of [n] consecutive iterations. *)
Fixpoint page_seq (n : nat) (limit page : Z) : list (Z * Z) :=
  match n with
  | O => []
  | S n' => (limit, page) :: page_seq n' (limit - 320) (page + 1)
  end.

(** The run of the loop when every page is answered. *)
Definition page_events (server : Request -> Response) (tags : list string)
    (url : string) (lp : Z * Z) : list Event :=
  let req := page_request tags url (fst lp) (snd lp) in
  [Acquire; Network req (server req)].

Definition page_result (server : Request -> Response) (tags : list string)
    (url : string) (lp : Z * Z) : list (option Post.t) :=
  page_posts (server (page_request tags url (fst lp) (snd lp))).

(** The calls a client can make, to state what holds of all of them. *)
Inductive Call :=
| CallPost (post_id : Z)
| CallSearch (tags : list string) (limit page : Z) (safe : bool)
    (blacklist : option (list string)) (score : Z)
| CallGetPoolImages (pool : Pool.t)
| CallPool (pool_id : Z)
| CallPoolSearch (query : string)
| CallWiki (query : value).

Definition raised {A} (m : M A) : option exn :=
  match outcome m with Ok _ => None | Raise e => Some e end.

(** The trace of a call and the exception it ends with, if any. *)
Definition run (server : Request -> Response) (c : Call)
  : list Event * option exn :=
  match c with
  | CallPost post_id =>
      let m := post server post_id in (events m, raised m)
  | CallSearch tags limit page safe blacklist score =>
      let m := search server tags limit page safe blacklist score in
      (events m, raised m)
  | CallGetPoolImages pool =>
      let m := get_pool_images server pool in (events m, raised m)
  | CallPool pool_id =>
      let m := pool server pool_id in (events m, raised m)
  | CallPoolSearch query =>
      let m := pool_search server query in (events m, raised m)
  | CallWiki query =>
      let m := wiki server query in (events m, raised m)
  end.

(** A trace is gated when each request follows a passage through the
    limiter that no earlier request has used. *)
Fixpoint gated_from (permit : bool) (t : list Event) : bool :=
  match t with
  | [] => true
  | Acquire :: t' => gated_from true t'
  | Network _ _ :: t' => permit && gated_from false t'
  end.

Definition gated (t : list Event) : bool := gated_from false t.

(** The exception [raise E621Error] ends with on a decoded body: the API
    error when the body is an error payload. *)
Definition error_of (body : Body) : exn :=
  match body with
  | JsonError e => E621 e
  | _ => OtherException
  end.

(** An operation propagates failures when a request answered with another
    status than 200 is its last event and the operation raises what
    [raise E621Error] makes of the body. *)
Definition propagates {A} (m : M A) : Prop :=
  forall req resp,
    In (Network req resp) (events m) ->
    status resp <> 200 ->
    outcome m = Raise (error_of (data resp)) /\
    exists t, events m = t ++ [Network req resp].

(** The request and the test of the status that follows it everywhere. *)
Definition checked (server : Request -> Response) (url : Request) {A}
    (k : Response -> M A) : M A :=
  r <- request server url ;;
  if negb (status r =? 200) then raise_E621Error (data r) else k r.

(** The posts [search] has accumulated and decoded when its first loop and
    [from_dict] are through. *)
Definition accumulated (server : Request -> Response) (tags : list string)
    (limit page : Z) (safe : bool) : Result (list Post.t) :=
  raw <- outcome (search_loop server tags (base_url safe) limit page []) ;;
  from_dict_posts raw.

(** [blacklist=None] stands for the empty list. *)
Definition default_blacklist (blacklist : option (list string)) : list string :=
  match blacklist with None => [] | Some b => b end.

(** A post carries a tag when one of its tag categories lists it. *)
Definition carries (post : Post.t) (tag : string) : Prop :=
  let tags := Post.tags post in
  In tag (Tags.general tags) \/ In tag (Tags.species tags) \/
  In tag (Tags.character tags) \/ In tag (Tags.copyright tags) \/
  In tag (Tags.artist tags) \/ In tag (Tags.invalid tags) \/
  In tag (Tags.lore tags) \/ In tag (Tags.meta tags).

(** A post of the search that counts for the pool entry [post_id]. *)
Definition pool_match (post_id : Z) (p : Post.t) : bool :=
  negb (Flags.deleted (Post.flags p)) && (Post.id p =? post_id).

(** The reconciliation as the specification words it: each id contributes
    the first match found, or nothing. *)
Definition resolve_first (post_ids : list Z) (r : list Post.t) : list Post.t :=
  flat_map
    (fun post_id =>
       match find (pool_match post_id) r with
       | Some p => [p]
       | None => []
       end)
    post_ids.

(** ** Sample data *)

Definition sample_file : File.t := File.mk 0 0 None "" 0 "" false.

Definition sample_post (id total : Z) (general : list string) (deleted : bool)
  : Post.t :=
  Post.mk id "" "" sample_file sample_file sample_file (Score.mk 0 0 total)
    (Tags.mk general [] [] [] [] [] [] []) [] 0
    (Flags.mk false false false false false deleted) "s" 0 [] []
    (Relationships.mk None false false []) None 0 "" 0 false false
    DurationNone.

Definition sample_pool (id : Z) (post_ids : list Z) : Pool.t :=
  Pool.mk id "" "" None 0 "" true "series" false post_ids "" 0 [].

(** A service that answers every request with the same page of posts. *)
Definition serve_posts (posts : list Post.t) (_ : Request) : Response :=
  mkResponse 200 (JsonPosts (map Some posts)).

(** A service that answers every request with an error. *)
Definition serve_error (code : Z) (reason : string) (_ : Request) : Response :=
  mkResponse code (JsonError (E621Error.mk false (Some reason) (Some code) "")).


(** A service whose first page of results is fine and whose second page is
    an error. *)
Definition second_page_fails (req : Request) : Response :=
  match query_param "page" req with
  | Some (VInt 2) => serve_error 404 "not found" req
  | _ => serve_posts [sample_post 1 10 [] false] req
  end.

(** A service that answers every page with one post and one entry that
    does not decode. *)
Definition serve_undecodable (_ : Request) : Response :=
  mkResponse 200 (JsonPosts [Some (sample_post 1 10 [] false); None]).

(** A service that knows one pool and answers every page of posts alike. *)
Definition serve_pool (p : Pool.t) (posts : list Post.t) (req : Request)
  : Response :=
  match req with
  | Lit _ :: _ => mkResponse 200 (JsonPools [Some p])
  | _ => mkResponse 200 (JsonPosts (map Some posts))
  end.

(** A service whose pages hold one post each, numbered from 0 by page. *)
Definition second_page_posts (req : Request) : Response :=
  match query_param "page" req with
  | Some (VInt page) =>
      mkResponse 200 (JsonPosts [Some (sample_post (page - 1) 10 [] false)])
  | _ => mkResponse 200 (JsonPosts [])
  end.

(** * The rest of the module *)

(** ** [Tag] *)

Module Tag.
Record t := mk {
  id : Z;
  name : string;
  post_count : Z;
  related_tags : list string;
  related_tags_updated_at : string;
  category : Z;
  is_locked : bool;
  created_at : string;
  updated_at : string }.

(** The dict of [category_name], as it is written. *)
Definition categories : list (Z * string) :=
  [(0, "General"); (1, "Artist"); (3, "Copyright"); (4, "Character");
   (5, "Species"); (6, "Invalid"); (7, "Meta"); (8, "Lore")].

Definition category_name (self : t) : string :=
  match find (fun kv => fst kv =? category self) categories with
  | Some kv => snd kv
  | None => "Unknown"
  end.
End Tag.

(** ** [File.link], [Post.link], [Post.download] *)

(** The truth value of a [str | None]. *)
Definition truthy (s : option string) : bool :=
  match s with
  | Some s => negb (String.eqb s "")
  | None => false
  end.

(** [File.link]: the url when there is one, else the static address built
    from the md5 and the extension, else [None].  The md5 is a hexadecimal
    digest: its characters are single bytes. *)
Definition File_link (self : File.t) : option string :=
  if truthy (File.url self) then File.url self
  else if negb (String.eqb (File.md5 self) "")
          && negb (String.eqb (File.ext self) "")
  then Some (String.append "https://static1.e621.net/data/"
            (String.append (substring 0 2 (File.md5 self))
            (String.append "/"
            (String.append (substring 2 2 (File.md5 self))
            (String.append "/"
            (String.append (File.md5 self)
            (String.append "." (File.ext self))))))))
  else None.

(** [Post.link]. *)
Definition Post_link (self : Post.t) : string :=
  String.append "https://e621.net/posts/" (str (Post.id self)).

(** [s.split(sep)] for a separator of one character. *)
Fixpoint str_split (sep : Ascii.ascii) (s : string) : list string :=
  match s with
  | EmptyString => [EmptyString]
  | String c s' =>
      if Ascii.eqb c sep then EmptyString :: str_split sep s'
      else match str_split sep s' with
           | piece :: pieces => String c piece :: pieces
           | [] => [String c EmptyString]
           end
  end.

(** What [download] raises: [ValueError("File Doesn't Exist")],
    [ValueError(dl.status)], and the [AttributeError] of [None.split]. *)
Inductive download_error :=
| FileDoesntExist
| BadStatus (status : Z)
| NoneHasNoSplit.

(** The buffer [download] returns: its name and its content. *)
Record BytesIO := mkBytesIO {
  buffer_name : string;
  getvalue : list Byte.byte }.

(** [Post.download], over the service the files are fetched from: the
    addresses requested, then the buffer or the error. *)
Definition Post_download (fetch : string -> Z * list Byte.byte)
    (self : Post.t) : list string * (BytesIO + download_error) :=
  let link := File_link (Post.file self) in
  if negb (truthy link) then ([], inr FileDoesntExist)
  else match link with
       | None => ([], inr FileDoesntExist)
       | Some address =>
           let dl := fetch address in
           if negb (fst dl =? 200) then ([address], inr (BadStatus (fst dl)))
           else match File.url (Post.file self) with
                | None => ([address], inr NoneHasNoSplit)
                | Some url =>
                    ([address],
                     inl (mkBytesIO (last (str_split "/"%char url) "") (snd dl)))
                end
       end.

(** The text of a URL, where no [urlencode] is involved. *)
Fixpoint render (url : Request) : option string :=
  match url with
  | [] => Some ""
  | Lit s :: url' => option_map (String.append s) (render url')
  | Fmt (VStr s) :: url' => option_map (String.append s) (render url')
  | Fmt (VInt z) :: url' => option_map (String.append (str z)) (render url')
  | UrlEncode _ :: _ => None
  end.

(** ** The session and its limiter *)

(** The attributes [__init] sets, the connection pool apart.  Instants are
    microseconds counted from [datetime.fromtimestamp(0)], the resolution
    of [datetime]; the headers are kept as the two strings [make_headers]
    is given. *)
Module ESix.
Record t := mk {
  username : string;
  api_key : string;
  user_agent : string;
  basic_auth : string;
  last_search : Z }.

Definition init (username api_key : string) : t :=
  mk username api_key
     (String.append "e621/2.1/"
        (String.append username " by TinyZorro/admin@tinyfox.dev"))
     (String.append username (String.append ":" api_key))
     0.

(** [__new__] on the class attribute [_instance]: the object returned and
    the attribute afterwards. *)
Definition new (instance : option t) (username api_key : string)
  : t * option t :=
  match instance with
  | None => let e621 := init username api_key in (e621, Some e621)
  | Some e621 => (e621, Some e621)
  end.

(** The assignment [self.last_search = now]. *)
Definition set_last_search (self : t) (now : Z) : t :=
  mk (username self) (api_key self) (user_agent self) (basic_auth self) now.

(** The [while] loop of [api_limiter] in one thread, on the readings
    [datetime.now] returns one after the other: the number of sleeps and
    the readings left; [None] when the readings end before the loop. *)
Fixpoint wait (last : Z) (clock : list Z) : option (nat * list Z) :=
  match clock with
  | [] => None
  | now :: clock' =>
      if last + 500000 >? now then
        option_map (fun r => (S (fst r), snd r)) (wait last clock')
      else Some (O, clock')
  end.

(** [api_limiter]: the wait, then the stamp from the next reading. *)
Definition api_limiter (self : t) (clock : list Z)
  : option (t * nat * list Z) :=
  match wait (last_search self) clock with
  | Some (sleeps, now :: clock') =>
      Some (set_last_search self now, sleeps, clock')
  | _ => None
  end.

(** [n] passages in a row: the stamps they leave. *)
Fixpoint stamps (n : nat) (self : t) (clock : list Z) : option (list Z) :=
  match n with
  | O => Some []
  | S n' =>
      match api_limiter self clock with
      | Some (self', _, clock') =>
          option_map (cons (last_search self')) (stamps n' self' clock')
      | None => None
      end
  end.

(** Constructions one after the other: the objects they return. *)
Fixpoint constructions (instance : option t) (args : list (string * string))
  : list t :=
  match args with
  | [] => []
  | (username, api_key) :: args' =>
      let (e621, instance') := new instance username api_key in
      e621 :: constructions instance' args'
  end.
End ESix.

(** * Properties *)

(** ** Running the monads *)

Lemma events_bind {A B} (m : M A) (k : A -> M B) :
  events (x <- m ;; k x) =
  events m ++ match outcome m with Ok a => events (k a) | Raise _ => [] end.
Proof.
  destruct m as [t [a | e]]; simpl.
  - destruct (k a); reflexivity.
  - now rewrite app_nil_r.
Qed.

Lemma outcome_bind {A B} (m : M A) (k : A -> M B) :
  outcome (x <- m ;; k x) =
  match outcome m with Ok a => outcome (k a) | Raise e => Raise e end.
Proof.
  destruct m as [t [a | e]]; simpl; [destruct (k a) |]; reflexivity.
Qed.

Lemma Result_eta {A} (r : Result A) :
  match r with Ok a => Ok a | Raise e => Raise e end = r.
Proof. now destruct r. Qed.

(** ** [list.remove] *)

Lemma list_remove_raises x l e : list_remove x l = Raise e -> e = ValueError.
Proof.
  induction l as [| y l IH]; simpl.
  - now intros [= <-].
  - destruct (Post.eq_dec y x); [discriminate |].
    destruct (list_remove x l); [discriminate | auto].
Qed.

Lemma list_remove_absent x l : ~ In x l -> list_remove x l = Raise ValueError.
Proof.
  induction l as [| y l IH]; simpl; intros H; [reflexivity |].
  destruct (Post.eq_dec y x) as [-> | _]; [tauto |].
  rewrite IH; tauto.
Qed.

Lemma list_remove_count x l l' :
  list_remove x l = Ok l' ->
  forall y, count l y = (count l' y + if Post.eq_dec x y then 1 else 0)%nat.
Proof.
  revert l'. induction l as [| z l IH]; simpl; intros l' H y; [discriminate |].
  destruct (Post.eq_dec z x) as [-> | Hzx].
  - injection H as <-. destruct (Post.eq_dec x y); lia.
  - destruct (list_remove x l) as [l1 |] eqn:E; [| discriminate].
    injection H as <-. simpl. rewrite (IH l1 eq_refl y).
    destruct (Post.eq_dec z y), (Post.eq_dec x y); try lia; congruence.
Qed.

Lemma list_remove_middle x l1 l2 :
  ~ In x l1 -> list_remove x (l1 ++ x :: l2) = Ok (l1 ++ l2).
Proof.
  induction l1 as [| y l1 IH]; simpl; intros H.
  - destruct (Post.eq_dec x x); [reflexivity | congruence].
  - destruct (Post.eq_dec y x) as [-> | _]; [tauto |].
    rewrite IH; tauto.
Qed.

(** ** The filtering pass of [search] *)

Section Filtering.

Variable blacklist : list string.
Variable score : Z.

Lemma filter_step_raises post posts e :
  filter_step blacklist score post posts = Raise e -> e = ValueError.
Proof.
  unfold filter_step. fold (blacklisted blacklist post) (low score post).
  destruct (blacklisted blacklist post), (low score post); simpl; rewrite ?Result_eta;
    try discriminate; try apply list_remove_raises.
  destruct (list_remove post posts) eqn:E.
  - apply list_remove_raises.
  - intros [= <-]. eapply list_remove_raises; eauto.
Qed.

Lemma filter_step_count post posts posts' :
  filter_step blacklist score post posts = Ok posts' ->
  forall y,
    count posts y =
    (count posts' y +
     if Post.eq_dec post y then b2n (blacklisted blacklist post) + b2n (low score post)
     else 0)%nat.
Proof.
  unfold filter_step. fold (blacklisted blacklist post) (low score post).
  destruct (blacklisted blacklist post), (low score post); simpl; rewrite ?Result_eta;
    intros H y.
  - destruct (list_remove post posts) as [l1 |] eqn:E; [| discriminate].
    rewrite (list_remove_count _ _ E y), (list_remove_count _ _ H y).
    destruct (Post.eq_dec post y); lia.
  - rewrite (list_remove_count _ _ H y). destruct (Post.eq_dec post y); lia.
  - rewrite (list_remove_count _ _ H y). destruct (Post.eq_dec post y); lia.
  - injection H as <-. destruct (Post.eq_dec post y); lia.
Qed.

Lemma filter_loop_raises snapshot posts e :
  filter_loop blacklist score snapshot posts = Raise e -> e = ValueError.
Proof.
  revert posts. induction snapshot as [| p snapshot IH]; simpl; intros posts.
  - discriminate.
  - destruct (filter_step blacklist score p posts) eqn:E.
    + apply IH.
    + intros [= <-]. eapply filter_step_raises; eauto.
Qed.

(** A post caught by both tests is removed twice at each of its visits:
    the list runs out of copies of it before the snapshot does. *)
Lemma filter_loop_twice snapshot posts :
  (forall q, In q snapshot -> blacklisted blacklist q = true -> low score q = true ->
             (count posts q < 2 * count snapshot q)%nat) ->
  (exists p, In p snapshot /\ blacklisted blacklist p = true /\ low score p = true) ->
  filter_loop blacklist score snapshot posts = Raise ValueError.
Proof.
  revert posts.
  induction snapshot as [| h snapshot IH]; intros posts Hinv [p [Hin [Hb Hl]]].
  - destruct Hin.
  - simpl. destruct (filter_step blacklist score h posts) as [posts' |] eqn:E.
    2: { f_equal. eapply filter_step_raises; eauto. }
    pose proof (filter_step_count _ _ E) as Hc.
    assert (Hinv' : forall q, In q snapshot -> blacklisted blacklist q = true ->
                      low score q = true ->
                      (count posts' q < 2 * count snapshot q)%nat).
    { intros q Hq Hbq Hlq.
      specialize (Hinv q (or_intror Hq) Hbq Hlq). specialize (Hc q).
      simpl in Hinv. destruct (Post.eq_dec h q) as [-> | Hne].
      - rewrite Hbq, Hlq in Hc. simpl in Hc. lia.
      - lia. }
    apply IH; [exact Hinv' |].
    destruct Hin as [-> | Hin]; [| now exists p].
    exists p. split; [| now split].
    specialize (Hinv p (or_introl eq_refl) Hb Hl). specialize (Hc p).
    simpl in Hinv. destruct (Post.eq_dec p p) as [_ | Hne]; [| congruence].
    rewrite Hb, Hl in Hc. simpl in Hc.
    apply (count_occ_In Post.eq_dec). lia.
Qed.

(** Without such a post every removal hits the post being visited, and the
    loop is a filter. *)
Lemma filter_loop_keeps snapshot kept :
  (forall q, In q kept -> keep blacklist score q = true) ->
  (forall q, In q snapshot -> blacklisted blacklist q && low score q = false) ->
  filter_loop blacklist score snapshot (kept ++ snapshot) =
  Ok (kept ++ filter (keep blacklist score) snapshot).
Proof.
  revert kept.
  induction snapshot as [| p snapshot IH]; intros kept Hkept Hsnap.
  - reflexivity.
  - assert (Hrest : forall q, In q snapshot -> blacklisted blacklist q && low score q = false)
      by (intros q Hq; apply Hsnap; now right).
    assert (Hp := Hsnap p (or_introl eq_refl)).
    assert (Hdrop : keep blacklist score p = false ->
              list_remove p (kept ++ p :: snapshot) = Ok (kept ++ snapshot)).
    { intros Hk. apply list_remove_middle. intros Hin.
      apply Hkept in Hin. congruence. }
    simpl filter_loop. simpl filter.
    unfold filter_step. fold (blacklisted blacklist p) (low score p).
    unfold keep in Hdrop |- *.
    destruct (blacklisted blacklist p) eqn:Eb, (low score p) eqn:El; simpl in Hp |- *;
      try discriminate; rewrite ?Result_eta.
    + rewrite Hdrop by reflexivity. now apply IH.
    + rewrite Hdrop by reflexivity. now apply IH.
    + replace (kept ++ p :: snapshot) with ((kept ++ [p]) ++ snapshot)
        by now rewrite <- app_assoc.
      rewrite IH; [now rewrite <- app_assoc | | exact Hrest].
      intros q Hq. apply in_app_or in Hq. destruct Hq as [Hq | [<- | []]].
      * now apply Hkept.
      * unfold keep. now rewrite Eb, El.
Qed.

End Filtering.

(** ** The pagination loop of [search] *)

Lemma page_seq_closed n limit page :
  page_seq n limit page =
  map (fun k => (limit - 320 * Z.of_nat k, page + Z.of_nat k)) (seq 0 n).
Proof.
  revert limit page. induction n as [| n IH]; intros limit page.
  - reflexivity.
  - cbn [page_seq seq map]. rewrite IH, <- seq_shift, map_map.
    f_equal; [f_equal; lia |].
    apply map_ext. intros k. f_equal; lia.
Qed.

Lemma pages_nonpositive limit : limit <= 0 -> pages limit = O.
Proof.
  intros H. unfold pages.
  assert ((limit + 319) / 320 <= 0); [| lia].
  apply Z.lt_succ_r. apply Z.div_lt_upper_bound; lia.
Qed.

Lemma pages_positive limit : limit > 0 -> pages limit = S (pages (limit - 320)).
Proof.
  intros H. unfold pages.
  replace (limit + 319) with ((limit - 320 + 319) + 1 * 320) by lia.
  rewrite Z.div_add by lia.
  destruct (Z_le_gt_dec (limit - 320) 0) as [Hle | Hgt].
  - fold (pages (limit - 320)). rewrite (pages_nonpositive Hle).
    assert ((limit - 320 + 319) / 320 = 0); [| lia].
    apply Z.div_small. lia.
  - assert (0 <= (limit - 320 + 319) / 320) by (apply Z.div_pos; lia).
    lia.
Qed.

Section Pagination.

Variable server : Request -> Response.
Variables (tags : list string) (url : string).

Lemma search_page_run limit page :
  search_page server tags url limit page =
  (let req := page_request tags url limit page in
   ([Acquire; Network req (server req)], page_outcome (server req))).
Proof.
  unfold search_page, page_outcome. fold (page_request tags url limit page).
  cbn. destruct (status _ =? 200); cbn.
  - destruct (data _); reflexivity.
  - destruct (data _); reflexivity.
Qed.

Lemma search_loop_step limit page posts :
  limit > 0 ->
  search_loop server tags url limit page posts =
  (ps <- search_page server tags url limit page ;;
   search_loop server tags url (limit - 320) (page + 1) (posts ++ ps)).
Proof.
  intros H. rewrite search_loop_equation_1.
  destruct (Z_gt_dec limit 0); [reflexivity | contradiction].
Qed.

Lemma search_loop_done limit page posts :
  limit <= 0 -> search_loop server tags url limit page posts = ret posts.
Proof.
  intros H. rewrite search_loop_equation_1.
  destruct (Z_gt_dec limit 0); [lia | reflexivity].
Qed.

Lemma search_loop_answered n : forall limit page posts,
  pages limit = n ->
  (forall lp, In lp (page_seq n limit page) ->
     answers_page (server (page_request tags url (fst lp) (snd lp)))) ->
  search_loop server tags url limit page posts =
  (flat_map (page_events server tags url) (page_seq n limit page),
   Ok (posts ++ flat_map (page_result server tags url) (page_seq n limit page))).
Proof.
  induction n as [| n IH]; intros limit page posts Hn Hok.
  - destruct (Z_le_gt_dec limit 0) as [Hle | Hgt].
    + rewrite search_loop_done by exact Hle. cbn. now rewrite app_nil_r.
    + rewrite pages_positive in Hn by exact Hgt. discriminate.
  - destruct (Z_le_gt_dec limit 0) as [Hle | Hgt].
    + rewrite pages_nonpositive in Hn by exact Hle. discriminate.
    + rewrite pages_positive in Hn by exact Hgt. injection Hn as Hn.
      rewrite search_loop_step, search_page_run by exact Hgt.
      destruct (Hok (limit, page) (or_introl eq_refl)) as [Hst [ps Hps]].
      cbn [fst snd] in Hst, Hps.
      cbn [page_seq flat_map]. unfold page_outcome.
      rewrite Hst, Hps. cbn [Z.eqb Pos.eqb bind Monad_M].
      rewrite (IH (limit - 320) (page + 1) (posts ++ ps) Hn).
      * unfold page_events at 2, page_result at 2, page_posts.
        cbn [fst snd]. rewrite Hps. cbn. now rewrite <- app_assoc.
      * intros lp Hlp. apply Hok. now right.
Qed.

End Pagination.

(** ** Traces of the operations *)

Lemma gated_from_permit t : gated t = true -> gated_from true t = true.
Proof.
  destruct t as [| [| req resp] t]; cbn; auto. discriminate.
Qed.

Lemma gated_from_app b t1 t2 :
  gated_from b t1 = true -> gated t2 = true ->
  gated_from b (t1 ++ t2) = true.
Proof.
  intros H1 H2. revert b H1.
  induction t1 as [| [| req resp] t1 IH]; cbn; intros b H1.
  - destruct b; [now apply gated_from_permit | exact H2].
  - now apply IH.
  - apply andb_true_iff in H1. destruct H1 as [-> H1]. cbn. now apply IH.
Qed.

Lemma gated_app t1 t2 :
  gated t1 = true -> gated t2 = true -> gated (t1 ++ t2) = true.
Proof. apply gated_from_app. Qed.

Lemma gated_bind {A B} (m : M A) (k : A -> M B) :
  gated (events m) = true -> (forall a, gated (events (k a)) = true) ->
  gated (events (x <- m ;; k x)) = true.
Proof.
  intros Hm Hk. rewrite events_bind. apply gated_app; [exact Hm |].
  destruct (outcome m); [apply Hk | reflexivity].
Qed.

Lemma gated_lift {A} (r : Result A) : gated (events (lift r)) = true.
Proof. reflexivity. Qed.

Lemma gated_limiter_checked server url {A} (k : Response -> M A) :
  (forall r, gated (events (k r)) = true) ->
  gated (events (api_limiter ;; checked server url k)) = true.
Proof.
  intros Hk. unfold checked. cbn.
  destruct (negb (status (server url) =? 200)).
  - destruct (data (server url)); reflexivity.
  - specialize (Hk (server url)). destruct (k (server url)) as [t r].
    exact Hk.
Qed.

Lemma raise_E621Error_eq A body :
  @raise_E621Error A body = ([], Raise (error_of body)).
Proof. now destruct body. Qed.

Lemma propagates_silent {A} (m : M A) :
  requests (events m) = [] -> propagates m.
Proof.
  intros H req resp Hin. exfalso.
  induction (events m) as [| [| req' resp'] t IH]; cbn in *.
  - exact Hin.
  - destruct Hin as [Hin | Hin]; [discriminate | auto].
  - discriminate.
Qed.

Lemma propagates_bind {A B} (m : M A) (k : A -> M B) :
  propagates m -> (forall a, propagates (k a)) ->
  propagates (x <- m ;; k x).
Proof.
  intros Hm Hk req resp Hin Hst.
  rewrite events_bind in Hin |- *. rewrite outcome_bind.
  apply in_app_or in Hin. destruct Hin as [Hin | Hin].
  - destruct (Hm req resp Hin Hst) as [Ho [t Ht]].
    rewrite Ho. split; [reflexivity |].
    exists t. now rewrite app_nil_r.
  - destruct (outcome m) as [a |]; [| destruct Hin].
    destruct (Hk a req resp Hin Hst) as [Ho [t Ht]].
    split; [exact Ho |].
    exists (events m ++ t). now rewrite Ht, app_assoc.
Qed.

Lemma propagates_checked server url {A} (k : Response -> M A) :
  (forall r, propagates (k r)) -> propagates (checked server url k).
Proof.
  intros Hk req resp Hin Hst. unfold checked in *.
  rewrite events_bind in Hin |- *. rewrite outcome_bind.
  cbn [request events outcome fst snd] in *.
  destruct (status (server url) =? 200) eqn:E; cbn [negb] in *.
  - destruct Hin as [Hin | Hin].
    + injection Hin as <- <-. apply Z.eqb_eq in E. contradiction.
    + destruct (Hk (server url) req resp Hin Hst) as [Ho [t Ht]].
      split; [exact Ho |].
      exists (Network url (server url) :: t). cbn. now rewrite <- Ht.
  - rewrite (raise_E621Error_eq A) in Hin |- *.
    destruct Hin as [Hin | []]. injection Hin as <- <-.
    split; [reflexivity |]. now exists [].
Qed.

Lemma propagates_limiter {A} (m : M A) :
  propagates m -> propagates (api_limiter ;; m).
Proof.
  intros Hm. apply propagates_bind; [| intros _; exact Hm].
  now apply propagates_silent.
Qed.

Ltac silent :=
  try apply propagates_silent;
  repeat match goal with
         | |- context [match ?x with _ => _ end] => destruct x
         end;
  reflexivity.

Section Operations.

Variable server : Request -> Response.

Lemma search_page_checked tags url limit page :
  search_page server tags url limit page =
  (api_limiter ;;
   checked server (page_request tags url limit page)
     (fun r => match data r with
               | JsonPosts ps => ret ps
               | _ => raise OtherException
               end)).
Proof. reflexivity. Qed.

Lemma propagates_search_page tags url limit page :
  propagates (search_page server tags url limit page).
Proof.
  rewrite search_page_checked.
  apply propagates_limiter, propagates_checked. intros r. silent.
Qed.

Lemma gated_search_page tags url limit page :
  gated (events (search_page server tags url limit page)) = true.
Proof.
  rewrite search_page_checked. apply gated_limiter_checked. intros r. silent.
Qed.

(** Both hold of the loop by induction on the iterations left. *)
Lemma search_loop_ind (P : M (list (option Post.t)) -> Prop) tags url :
  (forall posts, P (ret posts)) ->
  (forall limit page posts,
      limit > 0 ->
      (forall ps, P (search_loop server tags url (limit - 320) (page + 1)
                       (posts ++ ps))) ->
      P (ps <- search_page server tags url limit page ;;
         search_loop server tags url (limit - 320) (page + 1) (posts ++ ps))) ->
  forall limit page posts, P (search_loop server tags url limit page posts).
Proof.
  intros Hdone Hstep limit.
  remember (pages limit) as n eqn:Hn. revert limit Hn.
  induction n as [| n IH]; intros limit Hn page posts;
    destruct (Z_le_gt_dec limit 0) as [Hle | Hgt].
  - rewrite search_loop_done by exact Hle. apply Hdone.
  - rewrite pages_positive in Hn by exact Hgt. discriminate.
  - rewrite search_loop_done by exact Hle. apply Hdone.
  - rewrite search_loop_step by exact Hgt. apply Hstep; [exact Hgt |].
    intros ps. apply IH.
    rewrite pages_positive in Hn by exact Hgt. now injection Hn.
Qed.

Lemma propagates_search_loop tags url limit page posts :
  propagates (search_loop server tags url limit page posts).
Proof.
  apply search_loop_ind with (P := propagates).
  - intros. silent.
  - intros. apply propagates_bind; [apply propagates_search_page | assumption].
Qed.

Lemma gated_search_loop tags url limit page posts :
  gated (events (search_loop server tags url limit page posts)) = true.
Proof.
  apply search_loop_ind with (P := fun m => gated (events m) = true).
  - reflexivity.
  - intros. apply gated_bind; [apply gated_search_page | assumption].
Qed.

Lemma propagates_search tags limit page safe blacklist score :
  propagates (search server tags limit page safe blacklist score).
Proof.
  unfold search. apply propagates_bind; [apply propagates_search_loop |].
  intros raw. apply propagates_bind; intros; silent.
Qed.

Lemma gated_search tags limit page safe blacklist score :
  gated (events (search server tags limit page safe blacklist score)) = true.
Proof.
  unfold search. apply gated_bind; [apply gated_search_loop |].
  intros raw. apply gated_bind; intros; apply gated_lift.
Qed.

Lemma propagates_get_pool_images pool :
  propagates (get_pool_images server pool).
Proof.
  unfold get_pool_images. apply propagates_bind; [apply propagates_search |].
  intros. silent.
Qed.

Lemma gated_get_pool_images pool :
  gated (events (get_pool_images server pool)) = true.
Proof.
  unfold get_pool_images. apply gated_bind; [apply gated_search |].
  reflexivity.
Qed.

Lemma propagates_post post_id : propagates (post server post_id).
Proof.
  unfold post. apply propagates_limiter.
  apply (propagates_checked server _
           (fun r => match data r with
                     | JsonPost (Some p) => ret p
                     | _ => raise OtherException
                     end)).
  intros r. silent.
Qed.

Lemma gated_post post_id : gated (events (post server post_id)) = true.
Proof.
  unfold post.
  apply (gated_limiter_checked server _
           (fun r => match data r with
                     | JsonPost (Some p) => ret p
                     | _ => raise OtherException
                     end)).
  intros r. silent.
Qed.

Lemma propagates_pool pool_id : propagates (pool server pool_id).
Proof.
  unfold pool.
  apply (propagates_checked server _
           (fun r => match data r with
                     | JsonPools (Some pool :: _) =>
                         l <- get_pool_images server pool ;;
                         ret (Pool.set_posts pool (PostList.posts l))
                     | _ => raise OtherException
                     end)).
  intros r. destruct (data r) as [| | | [| [p |] ps] | |]; try silent.
  apply propagates_bind; [apply propagates_get_pool_images |].
  intros. silent.
Qed.

Lemma propagates_pool_search query : propagates (pool_search server query).
Proof.
  unfold pool_search. apply propagates_limiter.
  apply (propagates_checked server _
           (fun r => match data r with
                     | JsonPools ps => lift (from_dict_pools ps)
                     | _ => raise OtherException
                     end)).
  intros r. silent.
Qed.

Lemma gated_pool_search query :
  gated (events (pool_search server query)) = true.
Proof.
  unfold pool_search.
  apply (gated_limiter_checked server _
           (fun r => match data r with
                     | JsonPools ps => lift (from_dict_pools ps)
                     | _ => raise OtherException
                     end)).
  intros r. silent.
Qed.

Lemma propagates_wiki query : propagates (wiki server query).
Proof.
  unfold wiki. apply propagates_limiter.
  destruct (falsy query); [silent |].
  apply (propagates_checked server _
           (fun r => match data r with
                     | JsonWiki w => ret w
                     | _ => raise OtherException
                     end)).
  intros r. silent.
Qed.

Lemma gated_wiki query : gated (events (wiki server query)) = true.
Proof.
  unfold wiki. destruct (falsy query); [reflexivity |].
  apply (gated_limiter_checked server _
           (fun r => match data r with
                     | JsonWiki w => ret w
                     | _ => raise OtherException
                     end)).
  intros r. silent.
Qed.

End Operations.

(** ** [search] as its two loops *)

Lemma search_events server tags limit page safe blacklist score :
  events (search server tags limit page safe blacklist score) =
  events (search_loop server tags (base_url safe) limit page []).
Proof.
  unfold search. fold (base_url safe).
  rewrite events_bind.
  destruct (outcome (search_loop _ _ _ _ _ _)) as [raw |];
    [| now rewrite app_nil_r].
  rewrite events_bind. cbn [lift events fst outcome snd].
  destruct (from_dict_List raw); now rewrite !app_nil_r.
Qed.

Lemma search_outcome server tags limit page safe blacklist score :
  outcome (search server tags limit page safe blacklist score) =
  (posts <- accumulated server tags limit page safe ;;
   filter_posts (default_blacklist blacklist) score (PostList.mk posts)).
Proof.
  unfold search, accumulated. fold (base_url safe) (default_blacklist blacklist).
  rewrite outcome_bind.
  destruct (outcome (search_loop _ _ _ _ _ _)) as [raw |]; [| reflexivity].
  rewrite outcome_bind. unfold from_dict_List. cbn.
  destruct (from_dict_posts raw); reflexivity.
Qed.

Lemma from_dict_posts_decoded posts :
  from_dict_posts (map Some posts) = Ok posts.
Proof.
  induction posts as [| p posts IH]; cbn; [reflexivity |].
  cbn in IH. now rewrite IH.
Qed.

(** ** The filtering pass as a whole *)

Lemma blacklisted_spec blacklist post :
  blacklisted blacklist post = true <->
  exists tag, carries post tag /\ In tag blacklist.
Proof.
  unfold blacklisted, carries, Tags.all. rewrite existsb_exists.
  split; intros [tag [H1 H2]]; exists tag.
  - split.
    + rewrite !in_app_iff in H1. tauto.
    + unfold contains in H2. apply existsb_exists in H2.
      destruct H2 as [b [Hb Heq]]. apply String.eqb_eq in Heq. now subst.
  - split.
    + rewrite !in_app_iff. tauto.
    + unfold contains. apply existsb_exists. exists tag.
      split; [exact H2 | apply String.eqb_refl].
Qed.

Lemma blacklisted_nil post : blacklisted [] post = false.
Proof.
  unfold blacklisted. induction (Tags.all (Post.tags post)); auto.
Qed.

Lemma filter_posts_eq blacklist score posts :
  filter_posts blacklist score (PostList.mk posts) =
  if existsb (fun p => blacklisted blacklist p && low score p) posts
  then Raise ValueError
  else Ok (PostList.mk (filter (keep blacklist score) posts)).
Proof.
  unfold filter_posts. cbn [PostList.posts].
  destruct (existsb _ posts) eqn:E.
  - apply existsb_exists in E. destruct E as [p [Hin Hp]].
    apply andb_true_iff in Hp. destruct Hp as [Hb Hl].
    rewrite filter_loop_twice; [reflexivity | | now exists p].
    intros q Hq _ _. apply (count_occ_In Post.eq_dec) in Hq. lia.
  - change posts with ([] ++ posts) at 2.
    rewrite (filter_loop_keeps blacklist score posts []); [reflexivity | |].
    + intros q [].
    + intros q Hq. destruct (blacklisted blacklist q && low score q) eqn:Eq;
        [| reflexivity].
      assert (existsb (fun p => blacklisted blacklist p && low score p) posts
              = true) by (apply existsb_exists; now exists q).
      congruence.
Qed.

Lemma filter_loop_other blacklist score y snapshot : forall posts posts',
  ~ In y snapshot ->
  filter_loop blacklist score snapshot posts = Ok posts' ->
  count posts' y = count posts y.
Proof.
  induction snapshot as [| p snapshot IH]; intros posts posts' Hy H.
  - simpl in H. now injection H as <-.
  - simpl in H.
    destruct (filter_step blacklist score p posts) as [posts1 |] eqn:E;
      [| discriminate].
    rewrite (IH posts1 posts'); [| cbn in Hy; tauto | exact H].
    pose proof (filter_step_count _ _ _ _ E y) as Hc.
    destruct (Post.eq_dec p y) as [-> | _]; [cbn in Hy; tauto | lia].
Qed.

Lemma list_remove_present x l :
  In x l -> exists l', list_remove x l = Ok l'.
Proof.
  induction l as [| y l IH]; simpl; intros H; [destruct H |].
  destruct (Post.eq_dec y x) as [-> | Hne]; [now exists l |].
  destruct IH as [l' Hl']; [destruct H; [contradiction | assumption] |].
  rewrite Hl'. now exists (y :: l').
Qed.

(** * The claims *)

Unset Implicit Arguments.

Lemma requests_page_events server tags url l :
  requests (flat_map (page_events server tags url) l) =
  map (fun lp => page_request tags url (fst lp) (snd lp)) l.
Proof.
  unfold requests. induction l as [| lp l IH]; [reflexivity |].
  cbn [flat_map map]. rewrite flat_map_app, IH. reflexivity.
Qed.

(** ** C1: the page calls of [search] *)

Lemma pages_ceiling limit :
  limit > 0 ->
  320 * (Z.of_nat (pages limit) - 1) < limit <= 320 * Z.of_nat (pages limit).
Proof.
  intros H. unfold pages.
  assert (0 <= (limit + 319) / 320) by (apply Z.div_pos; lia).
  rewrite Z2Nat.id by assumption.
  pose proof (Z.div_mod (limit + 319) 320 ltac:(lia)).
  pose proof (Z.mod_pos_bound (limit + 319) 320 ltac:(lia)).
  lia.
Qed.

Lemma search_loop_requests server tags url n : forall limit page posts,
  pages limit = n ->
  exists m, (m <= n)%nat /\ (limit > 0 -> (1 <= m)%nat) /\
    requests (events (search_loop server tags url limit page posts)) =
    map (fun lp => page_request tags url (fst lp) (snd lp))
      (page_seq m limit page).
Proof.
  induction n as [| n IH]; intros limit page posts Hn;
    destruct (Z_le_gt_dec limit 0) as [Hle | Hgt].
  - exists O. rewrite search_loop_done by exact Hle.
    split; [lia | split; [lia | reflexivity]].
  - rewrite pages_positive in Hn by exact Hgt. discriminate.
  - rewrite pages_nonpositive in Hn by exact Hle. discriminate.
  - rewrite pages_positive in Hn by exact Hgt. injection Hn as Hn.
    rewrite search_loop_step, search_page_run by exact Hgt.
    cbv zeta. rewrite events_bind. cbn [events outcome fst snd].
    destruct (page_outcome _) as [ps |].
    + destruct (IH (limit - 320) (page + 1) (posts ++ ps) Hn)
        as (m & Hm & _ & Hreq).
      exists (S m). split; [lia | split; [lia |]].
      cbn [page_seq map fst snd]. rewrite <- Hreq. reflexivity.
    + exists 1%nat. split; [lia | split; [lia | reflexivity]].
Qed.

(** C1, as the code has it.  With [limit > 0], [search] issues at least one
    and at most ceil(limit/320) page calls, each behind a passage through
    the limiter, and exactly ceil(limit/320) of them when the service
    answers every page; the k-th call (from 0) asks for page [page + k] and
    sends as [limit] what is left of the budget, [limit - 320 * k], not the
    limit the caller passed. *)
Theorem search_page_calls server tags limit page safe blacklist score :
  limit > 0 ->
  let t := events (search server tags limit page safe blacklist score) in
  let call k :=
    page_request tags (base_url safe)
      (limit - 320 * Z.of_nat k) (page + Z.of_nat k) in
  320 * (Z.of_nat (pages limit) - 1) < limit <= 320 * Z.of_nat (pages limit) /\
  gated t = true /\
  (exists n, (1 <= n <= pages limit)%nat /\ requests t = map call (seq 0 n)) /\
  ((forall k, (k < pages limit)%nat -> answers_page (server (call k))) ->
   requests t = map call (seq 0 (pages limit)) /\
   length (requests t) = pages limit).
Proof.
  intros Hlimit t call. split; [now apply pages_ceiling |].
  split; [apply gated_search |]. split.
  - destruct (search_loop_requests server tags (base_url safe) (pages limit)
                limit page [] eq_refl) as (m & Hm & H1 & Hreq).
    exists m. split; [split; [now apply H1 | exact Hm] |].
    subst t. now rewrite search_events, Hreq, page_seq_closed, map_map.
  - intros Hok.
    assert (Hreq : requests t = map call (seq 0 (pages limit))).
    { subst t. rewrite search_events.
      rewrite (search_loop_answered server tags (base_url safe)
                 (n := pages limit))
        by (try reflexivity; rewrite page_seq_closed; intros lp Hlp;
            apply in_map_iff in Hlp; destruct Hlp as [k [<- Hk]];
            apply Hok; now apply in_seq in Hk).
      cbn [events fst].
      now rewrite requests_page_events, page_seq_closed, map_map. }
    split; [exact Hreq |].
    now rewrite Hreq, length_map, length_seq.
Qed.

Lemma search_page_calls_witness :
  requests (events (search (serve_posts []) ["fox"] 500 1 false None (-10))) =
  [page_request ["fox"] "https://e621.net/" 500 1;
   page_request ["fox"] "https://e621.net/" 180 2].
Proof.
  apply (search_page_calls (serve_posts []) ["fox"] 500 1 false None (-10)).
  - lia.
  - intros k _. split; [reflexivity | now exists []].
Defined.

(** C1 as stated fails twice: of the two page calls of a search with
    [limit = 500], the second sends [limit = 180]; and when the service
    answers the first page with an error there is one page call, not
    two. *)
Lemma search_original_limit_counterexample :
  ~ Forall (fun req => query_param "limit" req = Some (VInt 500))
      (requests
         (events (search (serve_posts []) ["fox"] 500 1 false None (-10))))
  /\
  length
    (requests
       (events (search (serve_error 404 "not found") ["fox"] 500 1 false None
                  (-10))))
  <> pages 500.
Proof.
  split.
  - intros H. vm_compute in H.
    inversion H as [| ? ? _ H']. inversion H' as [| ? ? Habs _].
    discriminate Habs.
  - vm_compute. discriminate.
Qed.

(** ** C10: a non-positive limit *)

(** C10.  With [limit <= 0] the loop body never runs: the trace is empty
    (no request, no passage through the limiter) and [search] returns an
    empty list of posts. *)
Theorem search_nonpositive_limit server tags limit page safe blacklist score :
  limit <= 0 ->
  search server tags limit page safe blacklist score =
  ([], Ok (PostList.mk [])).
Proof.
  intros H. unfold search. now rewrite search_loop_done by exact H.
Qed.

Lemma search_nonpositive_limit_witness :
  search (serve_posts [sample_post 1 10 [] false]) ["fox"] 0 1 false None (-10)
  = ([], Ok (PostList.mk [])).
Proof. apply search_nonpositive_limit. lia. Defined.

(** ** C8: [wiki] without a query *)

(** C8.  For a falsy query (the empty string, the integer 0) [wiki] raises
    the locally built error with reason "No Query Provided"; only the
    limiter has been passed, no request has been issued. *)
Theorem wiki_no_query server query :
  falsy query = true ->
  wiki server query =
  ([Acquire],
   Raise (E621 (E621Error.mk false (Some "No Query Provided") None ""))) /\
  requests (events (wiki server query)) = [].
Proof.
  intros H. unfold wiki. rewrite H. split; reflexivity.
Qed.

Lemma wiki_no_query_witness :
  wiki (serve_posts []) (VStr "") =
  ([Acquire],
   Raise (E621 (E621Error.mk false (Some "No Query Provided") None ""))) /\
  requests (events (wiki (serve_posts []) (VStr ""))) = [].
Proof. apply wiki_no_query. reflexivity. Defined.

(** ** C5, C6, C9: the filtering pass *)

(** C5 on the code.  Whenever [search] returns, no post of the returned
    sequence carries a blacklisted tag, whatever its score and whichever
    tag category holds the tag; so it is for the tag "gore".  And [search]
    returns, the accumulated posts without the blacklisted and the
    low-scored ones, as long as no blacklisted post has a score at most the
    threshold.  When one has, the two removals of that post make [search]
    raise [ValueError]: no sequence is returned, with or without the
    post. *)
Theorem search_excludes_blacklisted
    server tags limit page safe blacklist score :
  (forall result post tag,
      outcome (search server tags limit page safe (Some blacklist) score)
        = Ok result ->
      In tag blacklist -> carries post tag ->
      ~ In post (PostList.posts result)) /\
  (forall result post,
      outcome (search server tags limit page safe (Some blacklist) score)
        = Ok result ->
      In "gore" blacklist -> carries post "gore" ->
      ~ In post (PostList.posts result)) /\
  (forall posts,
      accumulated server tags limit page safe = Ok posts ->
      (forall p, In p posts -> blacklisted blacklist p = true ->
                 low score p = false) ->
      outcome (search server tags limit page safe (Some blacklist) score)
      = Ok (PostList.mk (filter (keep blacklist score) posts))) /\
  (forall posts post tag,
      accumulated server tags limit page safe = Ok posts ->
      In post posts ->
      In tag blacklist -> carries post tag ->
      Score.total (Post.score post) <= score ->
      outcome (search server tags limit page safe (Some blacklist) score)
      = Raise ValueError).
Proof.
  assert (Hex : forall result post tag,
      outcome (search server tags limit page safe (Some blacklist) score)
        = Ok result ->
      In tag blacklist -> carries post tag ->
      ~ In post (PostList.posts result)).
  { intros result post tag Hres Htag Hcarries Hin.
    rewrite search_outcome in Hres. cbn [default_blacklist] in Hres.
    destruct (accumulated server tags limit page safe) as [posts |];
      [| discriminate].
    simpl in Hres. rewrite filter_posts_eq in Hres.
    destruct (existsb _ posts); [discriminate |].
    injection Hres as <-. cbn [PostList.posts] in Hin.
    apply filter_In in Hin. destruct Hin as [_ Hkeep].
    assert (Hb : blacklisted blacklist post = true)
      by (apply blacklisted_spec; now exists tag).
    unfold keep in Hkeep. rewrite Hb in Hkeep. discriminate. }
  split; [exact Hex |]. split; [| split].
  - intros result post. apply Hex.
  - intros posts Hacc Hsafe.
    rewrite search_outcome, Hacc. cbn [default_blacklist]. simpl.
    rewrite filter_posts_eq.
    replace (existsb _ posts) with false; [reflexivity |].
    symmetry. apply not_true_is_false. intros E.
    apply existsb_exists in E. destruct E as [p [Hp E]].
    apply andb_true_iff in E. destruct E as [Hb Hl].
    rewrite (Hsafe p Hp Hb) in Hl. discriminate.
  - intros posts post tag Hacc Hin Htag Hcarries Hlow.
    rewrite search_outcome, Hacc. cbn [default_blacklist]. simpl.
    rewrite filter_posts_eq.
    replace (existsb _ posts) with true; [reflexivity |].
    symmetry. apply existsb_exists. exists post. split; [exact Hin |].
    apply andb_true_iff. split.
    + apply blacklisted_spec. now exists tag.
    + unfold low. now apply Z.leb_le.
Qed.

Lemma search_excludes_blacklisted_witness :
  outcome (search (serve_posts [sample_post 1 (-20) ["gore"] false;
                                sample_post 2 10 ["fox"] false])
             ["fox"] 160 1 false (Some ["gore"]) (-10))
  = Raise ValueError.
Proof.
  apply (proj2 (proj2 (proj2
           (search_excludes_blacklisted
              (serve_posts [sample_post 1 (-20) ["gore"] false;
                            sample_post 2 10 ["fox"] false])
              ["fox"] 160 1 false ["gore"] (-10))))
           [sample_post 1 (-20) ["gore"] false;
            sample_post 2 10 ["fox"] false]
           (sample_post 1 (-20) ["gore"] false) "gore").
  - reflexivity.
  - now left.
  - now left.
  - left. now left.
  - cbn. lia.
Defined.

(** [search(["fox"], blacklist=["gore"])] on a page that holds one post
    tagged "gore" with score -20 and one tagged "fox" with score 10: the
    call raises, the post tagged "fox" is not returned either. *)
Theorem search_blacklisted_low_raises :
  search (serve_posts [sample_post 1 (-20) ["gore"] false;
                       sample_post 2 10 ["fox"] false])
    ["fox"] 160 1 false (Some ["gore"]) (-10)
  = ([Acquire;
      Network (page_request ["fox"] "https://e621.net/" 160 1)
        (serve_posts [sample_post 1 (-20) ["gore"] false;
                      sample_post 2 10 ["fox"] false] [])],
     Raise ValueError).
Proof. reflexivity. Qed.

(** C6.  For every accumulated sequence and every threshold, [search]
    without blacklist returns the posts whose total score is above the
    threshold, in arrival order: its filtering pass drops exactly those
    whose score is at most the threshold.  So it does under any blacklist
    that catches none of the posts.  Of three such posts with scores 10,
    -10, -20 and threshold -10 only the first is returned. *)
Theorem search_filters_by_score score posts :
  (forall server tags limit page safe,
      accumulated server tags limit page safe = Ok posts ->
      outcome (search server tags limit page safe None score) =
      Ok (PostList.mk
            (filter (fun p => negb (Score.total (Post.score p) <=? score))
               posts))) /\
  (forall server tags limit page safe blacklist,
      accumulated server tags limit page safe = Ok posts ->
      (forall p, In p posts ->
         blacklisted (default_blacklist blacklist) p = false) ->
      outcome (search server tags limit page safe blacklist score) =
      Ok (PostList.mk
            (filter (fun p => negb (Score.total (Post.score p) <=? score))
               posts)) /\
      (forall a b c,
          posts = [a; b; c] -> score = -10 ->
          Score.total (Post.score a) = 10 ->
          Score.total (Post.score b) = -10 ->
          Score.total (Post.score c) = -20 ->
          outcome (search server tags limit page safe blacklist score)
          = Ok (PostList.mk [a]))) /\
  filter_posts (default_blacklist None) score (PostList.mk posts) =
  Ok (PostList.mk
        (filter (fun p => negb (Score.total (Post.score p) <=? score)) posts))
  /\
  (forall blacklist,
      (forall p, In p posts -> blacklisted blacklist p = false) ->
      filter_posts blacklist score (PostList.mk posts) =
      Ok (PostList.mk
            (filter (fun p => negb (Score.total (Post.score p) <=? score))
               posts)) /\
      (forall a b c,
          posts = [a; b; c] -> score = -10 ->
          Score.total (Post.score a) = 10 ->
          Score.total (Post.score b) = -10 ->
          Score.total (Post.score c) = -20 ->
          filter_posts blacklist score (PostList.mk posts)
          = Ok (PostList.mk [a]))).
Proof.
  assert (Hgen : forall blacklist,
    (forall p, In p posts -> blacklisted blacklist p = false) ->
    filter_posts blacklist score (PostList.mk posts) =
    Ok (PostList.mk
          (filter (fun p => negb (Score.total (Post.score p) <=? score))
             posts))).
  { intros blacklist Hbl. rewrite filter_posts_eq.
    replace (existsb _ posts) with false.
    - do 2 f_equal. apply filter_ext_in. intros p Hp.
      unfold keep, low. now rewrite (Hbl p Hp).
    - symmetry. apply not_true_is_false. intros E.
      apply existsb_exists in E. destruct E as [p [Hp E]].
      rewrite (Hbl p Hp) in E. discriminate. }
  assert (Hthree : forall a b c,
    posts = [a; b; c] -> score = -10 ->
    Score.total (Post.score a) = 10 ->
    Score.total (Post.score b) = -10 ->
    Score.total (Post.score c) = -20 ->
    filter (fun p => negb (Score.total (Post.score p) <=? score)) posts
    = [a]).
  { intros a b c -> -> Ha Hb Hc. cbn [filter]. now rewrite Ha, Hb, Hc. }
  assert (Hsearch : forall server tags limit page safe blacklist,
    accumulated server tags limit page safe = Ok posts ->
    (forall p, In p posts ->
       blacklisted (default_blacklist blacklist) p = false) ->
    outcome (search server tags limit page safe blacklist score) =
    Ok (PostList.mk
          (filter (fun p => negb (Score.total (Post.score p) <=? score))
             posts))).
  { intros server tags limit page safe blacklist Hacc Hbl.
    rewrite search_outcome, Hacc. simpl. now apply Hgen. }
  split; [| split; [| split]].
  - intros server tags limit page safe Hacc. apply Hsearch; [exact Hacc |].
    intros p _. apply blacklisted_nil.
  - intros server tags limit page safe blacklist Hacc Hbl.
    split; [now apply Hsearch |].
    intros a b c Hp Hs Ha Hb Hc.
    rewrite (Hsearch server tags limit page safe blacklist Hacc Hbl).
    now rewrite (Hthree a b c Hp Hs Ha Hb Hc).
  - apply Hgen. intros p _. apply blacklisted_nil.
  - intros blacklist Hbl. split; [now apply Hgen |].
    intros a b c Hp Hs Ha Hb Hc. rewrite (Hgen blacklist Hbl).
    now rewrite (Hthree a b c Hp Hs Ha Hb Hc).
Qed.

Lemma search_filters_by_score_witness :
  outcome (search (serve_posts [sample_post 1 10 [] false;
                                sample_post 2 (-10) [] false;
                                sample_post 3 (-20) ["fox"] false])
             ["fox"] 160 1 false (Some ["gore"]) (-10))
  = Ok (PostList.mk [sample_post 1 10 [] false]).
Proof.
  apply (proj1 (proj2 (search_filters_by_score (-10)
                         [sample_post 1 10 [] false;
                          sample_post 2 (-10) [] false;
                          sample_post 3 (-20) ["fox"] false]))
           (serve_posts [sample_post 1 10 [] false;
                         sample_post 2 (-10) [] false;
                         sample_post 3 (-20) ["fox"] false])
           ["fox"] 160 1 false (Some ["gore"])).
  - reflexivity.
  - intros p [<- | [<- | [<- | []]]]; reflexivity.
Defined.

(** C9.  A post that occurs once among the accumulated posts, carries a
    blacklisted tag and has a total score at most the threshold is removed
    once by the first test, and the removal of the second test raises
    [ValueError]: the filtering pass, and [search] with it, raises instead
    of returning. *)
Theorem search_removes_twice blacklist score posts post :
  count posts post = 1%nat ->
  blacklisted blacklist post = true ->
  low score post = true ->
  (forall pre suf cur,
      posts = pre ++ post :: suf ->
      filter_loop blacklist score pre posts = Ok cur ->
      (exists cur', list_remove post cur = Ok cur' /\
                    list_remove post cur' = Raise ValueError) /\
      filter_step blacklist score post cur = Raise ValueError) /\
  filter_posts blacklist score (PostList.mk posts) = Raise ValueError /\
  (forall server tags limit page safe,
      accumulated server tags limit page safe = Ok posts ->
      outcome (search server tags limit page safe (Some blacklist) score)
      = Raise ValueError).
Proof.
  intros Hcount Hb Hl.
  assert (Hin : In post posts)
    by (apply (count_occ_In Post.eq_dec); lia).
  assert (Hpass : filter_posts blacklist score (PostList.mk posts)
                  = Raise ValueError).
  { rewrite filter_posts_eq.
    replace (existsb _ posts) with true; [reflexivity |].
    symmetry. apply existsb_exists. exists post. now rewrite Hb, Hl. }
  split; [| split; [exact Hpass |]].
  - intros pre suf cur -> Hcur.
    rewrite count_occ_app in Hcount. cbn in Hcount.
    destruct (Post.eq_dec post post) as [_ | Hne]; [| congruence].
    assert (Hpre : ~ In post pre)
      by (apply (count_occ_not_In Post.eq_dec); lia).
    assert (Hone : count cur post = 1%nat).
    { rewrite (filter_loop_other blacklist score post pre _ Hpre Hcur).
      rewrite count_occ_app. cbn.
      destruct (Post.eq_dec post post); [lia | congruence]. }
    destruct (list_remove_present post cur) as [cur' Hcur'];
      [apply (count_occ_In Post.eq_dec); lia |].
    assert (Hgone : list_remove post cur' = Raise ValueError).
    { apply list_remove_absent. apply (count_occ_not_In Post.eq_dec).
      pose proof (list_remove_count _ _ Hcur' post) as Hc.
      destruct (Post.eq_dec post post); [lia | congruence]. }
    split; [now exists cur' |].
    unfold filter_step. fold (blacklisted blacklist post) (low score post).
    rewrite Hb, Hl, Hcur'. exact Hgone.
  - intros server tags limit page safe Hacc.
    rewrite search_outcome, Hacc. exact Hpass.
Qed.

Lemma search_removes_twice_witness :
  filter_posts ["gore"] (-10)
    (PostList.mk [sample_post 1 10 [] false;
                  sample_post 2 (-15) ["gore"] false])
  = Raise ValueError.
Proof.
  apply (search_removes_twice ["gore"] (-10)
           [sample_post 1 10 [] false; sample_post 2 (-15) ["gore"] false]
           (sample_post 2 (-15) ["gore"] false)); reflexivity.
Defined.

(** ** C4: the posts of a pool *)

Lemma pool_images_inner post_id r : forall posts,
  fold_left
    (fun posts p =>
       if Flags.deleted (Post.flags p) then posts
       else if Post.id p =? post_id then posts ++ [p]
       else posts)
    r posts
  = posts ++ filter (pool_match post_id) r.
Proof.
  induction r as [| p r IH]; intros posts; cbn [fold_left filter].
  - now rewrite app_nil_r.
  - rewrite IH. unfold pool_match at 2.
    destruct (Flags.deleted (Post.flags p)); cbn [negb andb]; [reflexivity |].
    destruct (Post.id p =? post_id); [| reflexivity].
    now rewrite <- app_assoc.
Qed.

Lemma pool_images_outer r post_ids : forall posts,
  fold_left
    (fun posts post =>
       fold_left
         (fun posts p =>
            if Flags.deleted (Post.flags p) then posts
            else if Post.id p =? post then posts ++ [p]
            else posts)
         r posts)
    post_ids posts
  = posts ++ flat_map (fun post_id => filter (pool_match post_id) r) post_ids.
Proof.
  induction post_ids as [| i post_ids IH]; intros posts;
    cbn [fold_left flat_map].
  - now rewrite app_nil_r.
  - now rewrite pool_images_inner, IH, <- app_assoc.
Qed.

Lemma filter_at_most_one {A} (f : A -> bool) l :
  (length (filter f l) <= 1)%nat ->
  filter f l = match find f l with Some x => [x] | None => [] end.
Proof.
  induction l as [| x l IH]; cbn; [reflexivity |].
  destruct (f x); cbn; [| exact IH].
  intros H. destruct (filter f l); [reflexivity | cbn in H; lia].
Qed.

(** C4, as the code has it.  [get_pool_images] follows the order of
    [post_ids], and for each id appends every post of the search result
    that has this id and is not flagged deleted, in the order of the
    search result: all the matches, not the first one only (the two agree
    when no two such posts of the result share an id).  Ids without such a
    post contribute nothing; for [post_ids = [5; 3; 9]] and a result
    holding 3 and a deleted 5 the outcome is the post 3 alone. *)
Theorem get_pool_images_order server pool :
  (forall post_ids r,
      pool_images post_ids r =
      flat_map (fun post_id => filter (pool_match post_id) r) post_ids) /\
  outcome (get_pool_images server pool) =
    (r <- outcome (search server
                     [String.append "pool:" (str (Pool.id pool))]
                     1280 1 false None (-5000)) ;;
     ret (PostList.mk
            (flat_map
               (fun post_id => filter (pool_match post_id) (PostList.posts r))
               (Pool.post_ids pool)))) /\
  (forall post_ids r,
      (forall post_id,
          (length (filter (pool_match post_id) r) <= 1)%nat) ->
      pool_images post_ids r = resolve_first post_ids r) /\
  (forall p3 p5,
      Post.id p3 = 3 -> Post.id p5 = 5 ->
      Flags.deleted (Post.flags p3) = false ->
      Flags.deleted (Post.flags p5) = true ->
      pool_images [5; 3; 9] [p3; p5] = [p3] /\
      pool_images [5; 3; 9] [p5; p3] = [p3]).
Proof.
  assert (Hpure : forall post_ids r,
      pool_images post_ids r =
      flat_map (fun post_id => filter (pool_match post_id) r) post_ids).
  { intros post_ids r. unfold pool_images. now rewrite pool_images_outer. }
  split; [exact Hpure |]. split.
  - unfold get_pool_images. rewrite outcome_bind.
    destruct (outcome (search _ _ _ _ _ _ _)) as [r |]; [| reflexivity].
    cbn. now rewrite Hpure.
  - split.
    { intros post_ids r Huniq. rewrite Hpure. unfold resolve_first.
      apply flat_map_ext. intros i. apply filter_at_most_one, Huniq. }
    intros p3 p5 H3 H5 Hd3 Hd5. rewrite !Hpure.
    unfold pool_match. cbn [flat_map filter].
    rewrite H3, H5, Hd3, Hd5. split; reflexivity.
Qed.

Lemma get_pool_images_order_witness :
  pool_images [5; 3; 9] [sample_post 3 0 [] false; sample_post 5 0 [] true]
  = [sample_post 3 0 [] false].
Proof.
  apply (get_pool_images_order (serve_posts []) (sample_pool 1 [5; 3; 9]));
    reflexivity.
Defined.

(** C4 as stated fails: when the search result holds two posts with the id
    asked for, both are appended, not the first alone. *)
Lemma get_pool_images_first_counterexample :
  pool_images [3] [sample_post 3 10 [] false; sample_post 3 20 [] false]
  = [sample_post 3 10 [] false; sample_post 3 20 [] false] /\
  resolve_first [3] [sample_post 3 10 [] false; sample_post 3 20 [] false]
  = [sample_post 3 10 [] false] /\
  pool_images [3] [sample_post 3 10 [] false; sample_post 3 20 [] false]
  <> resolve_first [3] [sample_post 3 10 [] false; sample_post 3 20 [] false].
Proof.
  repeat split; try reflexivity. discriminate.
Qed.

(** ** C7: API errors *)

(** C7.  In every call, a request answered with a status other than 200
    ends the call: it is the last event of the trace and the call raises
    what [raise E621Error] makes of the decoded body, the [E621Error] with
    the fields of the body when it is an error payload.  For [search] this
    holds of every page, so nothing the earlier pages brought is
    returned. *)
Theorem api_error_propagates server c req resp :
  In (Network req resp) (fst (run server c)) ->
  status resp <> 200 ->
  snd (run server c) = Some (error_of (data resp)) /\
  (forall e, data resp = JsonError e -> snd (run server c) = Some (E621 e)) /\
  (exists t, fst (run server c) = t ++ [Network req resp]) /\
  (forall tags limit page safe blacklist score,
      c = CallSearch tags limit page safe blacklist score ->
      outcome (search server tags limit page safe blacklist score)
      = Raise (error_of (data resp))).
Proof.
  intros Hin Hst.
  assert (H : forall A (m : M A),
             propagates m -> In (Network req resp) (events m) ->
             outcome m = Raise (error_of (data resp)) /\
             raised m = Some (error_of (data resp)) /\
             (forall e, data resp = JsonError e -> raised m = Some (E621 e)) /\
             exists t, events m = t ++ [Network req resp]).
  { intros A m Hm Hin'. destruct (Hm req resp Hin' Hst) as [Ho Ht].
    unfold raised. rewrite Ho. repeat split; [| exact Ht].
    now intros e ->. }
  destruct c as [post_id | tags limit page safe blacklist score | p
                | pool_id | query | query]; cbn [run fst snd] in *.
  - destruct (H _ _ (propagates_post server post_id) Hin) as (_ & Hr & He & Ht).
    repeat split; [exact Hr | exact He | exact Ht | discriminate].
  - destruct (H _ _ (propagates_search server tags limit page safe blacklist
                       score) Hin) as (Ho & Hr & He & Ht).
    repeat split; [exact Hr | exact He | exact Ht |].
    intros tags' limit' page' safe' blacklist' score' Heq.
    injection Heq as <- <- <- <- <- <-. exact Ho.
  - destruct (H _ _ (propagates_get_pool_images server p) Hin)
      as (_ & Hr & He & Ht).
    repeat split; [exact Hr | exact He | exact Ht | discriminate].
  - destruct (H _ _ (propagates_pool server pool_id) Hin) as (_ & Hr & He & Ht).
    repeat split; [exact Hr | exact He | exact Ht | discriminate].
  - destruct (H _ _ (propagates_pool_search server query) Hin)
      as (_ & Hr & He & Ht).
    repeat split; [exact Hr | exact He | exact Ht | discriminate].
  - destruct (H _ _ (propagates_wiki server query) Hin) as (_ & Hr & He & Ht).
    repeat split; [exact Hr | exact He | exact Ht | discriminate].
Qed.

Lemma api_error_propagates_witness :
  outcome (search second_page_fails ["fox"] 500 1 false None (-10)) =
  Raise (E621 (E621Error.mk false (Some "not found") (Some 404) "")).
Proof.
  apply (api_error_propagates second_page_fails
           (CallSearch ["fox"] 500 1 false None (-10))
           (page_request ["fox"] "https://e621.net/" 180 2)
           (serve_error 404 "not found" [])).
  - cbn. right. right. right. now left.
  - discriminate.
  - reflexivity.
Defined.

(** ** C2: the gate before each request *)

(** C2 on the code.  The traces of [post], [search], [get_pool_images],
    [pool_search] and [wiki] are gated; the trace of [pool] is not: it
    starts with the request for the pool, which no passage through the
    limiter precedes. *)
Theorem limiter_gate server c :
  gated (fst (run server c)) =
  match c with CallPool _ => false | _ => true end.
Proof.
  destruct c as [post_id | tags limit page safe blacklist score | p
                | pool_id | query | query]; cbn [run fst].
  - apply gated_post.
  - apply gated_search.
  - apply gated_get_pool_images.
  - unfold pool. rewrite events_bind. reflexivity.
  - apply gated_pool_search.
  - apply gated_wiki.
Qed.

(** [pool(1)]: the first event is the request, whatever the answer. *)
Theorem pool_request_ungated server :
  exists t,
    events (pool server 1) =
    Network [Lit "https://e621.net/pools.json/?";
             UrlEncode [("commit", VStr "search"); ("search[id]", VInt 1)]]
      (server [Lit "https://e621.net/pools.json/?";
               UrlEncode [("commit", VStr "search");
                          ("search[id]", VInt 1)]])
    :: t.
Proof.
  unfold pool. rewrite events_bind. cbn [request events fst app].
  eexists. reflexivity.
Qed.

(** ** No request is issued twice *)

(** Within one call the requests are pairwise distinct: a function from
    requests to responses can play any sequence of answers. *)

Lemma requests_app t1 t2 : requests (t1 ++ t2) = requests t1 ++ requests t2.
Proof. apply flat_map_app. Qed.

Lemma requests_limiter A (m : M A) :
  requests (events (api_limiter ;; m)) = requests (events m).
Proof. rewrite events_bind, requests_app. reflexivity. Qed.

Lemma requests_checked server url A (k : Response -> M A) :
  requests (events (checked server url k)) =
  url :: (if status (server url) =? 200
          then requests (events (k (server url))) else []).
Proof.
  unfold checked. rewrite events_bind, requests_app.
  cbn [request events outcome fst snd requests flat_map app].
  destruct (status (server url) =? 200); cbn [negb]; [reflexivity |].
  now rewrite raise_E621Error_eq.
Qed.

Lemma requests_search server tags limit page safe blacklist score :
  exists n,
    requests (events (search server tags limit page safe blacklist score)) =
    map (fun k => page_request tags (base_url safe)
                    (limit - 320 * Z.of_nat k) (page + Z.of_nat k))
      (seq 0 n).
Proof.
  destruct (search_loop_requests server tags (base_url safe) (pages limit)
              limit page [] eq_refl) as (n & _ & _ & Hreq).
  exists n. now rewrite search_events, Hreq, page_seq_closed, map_map.
Qed.

Lemma requests_distinct server c : NoDup (requests (fst (run server c))).
Proof.
  assert (Hone : forall url (rest : list Request) (b : bool),
             rest = [] -> NoDup (url :: (if b then rest else []))).
  { intros url rest b ->. destruct b; repeat constructor; intros []. }
  assert (Hsearch : forall tags limit page safe blacklist score,
             NoDup (requests (events (search server tags limit page safe
                                        blacklist score)))).
  { intros tags limit page safe blacklist score.
    destruct (requests_search server tags limit page safe blacklist score)
      as [n ->].
    apply Injective_map_NoDup; [| apply seq_NoDup].
    intros k k' H. injection H. lia. }
  assert (Hpool : forall p,
             requests (events (get_pool_images server p)) =
             requests (events (search server
                                 [String.append "pool:" (str (Pool.id p))]
                                 1280 1 false None (-5000)))).
  { intros p. unfold get_pool_images. rewrite events_bind, requests_app.
    destruct (outcome _); cbn; now rewrite app_nil_r. }
  destruct c as [post_id | tags limit page safe blacklist score | p
                | pool_id | query | query]; cbn [run fst].
  - change (post server post_id) with
      (api_limiter ;;
       checked server
         [Lit "https://e621.net/posts/"; Fmt (VInt post_id); Lit ".json"]
         (fun r => match data r with
                   | JsonPost (Some p) => ret p
                   | _ => raise OtherException
                   end)).
    rewrite requests_limiter, requests_checked. apply Hone. silent.
  - apply Hsearch.
  - rewrite Hpool. apply Hsearch.
  - change (pool server pool_id) with
      (checked server
         [Lit "https://e621.net/pools.json/?";
          UrlEncode [("commit", VStr "search"); ("search[id]", VInt pool_id)]]
         (fun r => match data r with
                   | JsonPools (Some pool :: _) =>
                       l <- get_pool_images server pool ;;
                       ret (Pool.set_posts pool (PostList.posts l))
                   | _ => raise OtherException
                   end)).
    rewrite requests_checked.
    destruct (status _ =? 200); [| repeat constructor; intros []].
    destruct (data _) as [| | | [| [p |] ps] | |];
      try (repeat constructor; intros []).
    rewrite events_bind, requests_app.
    replace (requests match outcome (get_pool_images server p) with
                      | Ok a => events (ret (Pool.set_posts p (PostList.posts a)))
                      | Raise _ => []
                      end) with (@nil Request)
      by (destruct (outcome _); reflexivity).
    rewrite app_nil_r, Hpool. constructor; [| apply Hsearch].
    destruct (requests_search server
                [String.append "pool:" (str (Pool.id p))] 1280 1 false None
                (-5000)) as [n ->].
    intros Hin. apply in_map_iff in Hin. destruct Hin as [k [Hk _]].
    discriminate Hk.
  - change (pool_search server query) with
      (api_limiter ;;
       checked server
         [Lit "https://e621.net/pools.json/?";
          UrlEncode [("commit", VStr "search");
                     ("search[name_matches]", VStr query)]]
         (fun r => match data r with
                   | JsonPools ps => lift (from_dict_pools ps)
                   | _ => raise OtherException
                   end)).
    rewrite requests_limiter, requests_checked. apply Hone. silent.
  - unfold wiki. rewrite requests_limiter.
    destruct (falsy query); [constructor |].
    change (requests (events ?m)) with
      (requests
         (events
            (checked server
               [Lit "https://e621.net/wiki_pages/"; Fmt query; Lit ".json"]
               (fun r => match data r with
                         | JsonWiki w => ret w
                         | _ => raise OtherException
                         end)))).
    rewrite requests_checked. apply Hone. silent.
Qed.

(** * Further properties *)

(** ** [search] *)

Lemma from_dict_posts_undecodable raw :
  In None raw -> from_dict_posts raw = Raise OtherException.
Proof.
  induction raw as [| [p |] raw IH]; simpl; intros H.
  - destruct H.
  - destruct H as [H | H]; [discriminate |]. now rewrite IH.
  - reflexivity.
Qed.

(** X1.  When [search] returns, it returns the accumulated posts without
    those that carry a blacklisted tag or have a total score at most the
    threshold, in the order they arrived: every returned post was fetched,
    scores above the threshold and is not blacklisted. *)
Theorem search_returns_filter
    server tags limit page safe blacklist score result :
  outcome (search server tags limit page safe blacklist score) = Ok result ->
  exists posts,
    accumulated server tags limit page safe = Ok posts /\
    PostList.posts result =
      filter (keep (default_blacklist blacklist) score) posts /\
    (forall p, In p (PostList.posts result) ->
       In p posts /\ score < Score.total (Post.score p) /\
       blacklisted (default_blacklist blacklist) p = false).
Proof.
  intros H. rewrite search_outcome in H.
  destruct (accumulated server tags limit page safe) as [posts |];
    [| discriminate].
  simpl in H. rewrite filter_posts_eq in H.
  destruct (existsb _ posts); [discriminate |]. injection H as <-.
  exists posts. split; [reflexivity |]. split; [reflexivity |].
  intros p Hp. cbn [PostList.posts] in Hp. apply filter_In in Hp.
  destruct Hp as [Hin Hkeep]. unfold keep, low in Hkeep.
  apply andb_true_iff in Hkeep. destruct Hkeep as [Hb Hl].
  apply negb_true_iff in Hb, Hl. apply Z.leb_gt in Hl. auto.
Qed.

Lemma search_returns_filter_witness :
  exists posts,
    accumulated (serve_posts [sample_post 1 10 ["gore"] false;
                              sample_post 2 10 ["fox"] false;
                              sample_post 3 (-10) ["fox"] false])
      ["fox"] 160 1 false = Ok posts /\
    [sample_post 2 10 ["fox"] false] =
      filter (keep (default_blacklist (Some ["gore"])) (-10)) posts /\
    (forall p, In p [sample_post 2 10 ["fox"] false] ->
       In p posts /\ -10 < Score.total (Post.score p) /\
       blacklisted (default_blacklist (Some ["gore"])) p = false).
Proof.
  apply (search_returns_filter
           (serve_posts [sample_post 1 10 ["gore"] false;
                         sample_post 2 10 ["fox"] false;
                         sample_post 3 (-10) ["fox"] false])
           ["fox"] 160 1 false (Some ["gore"]) (-10)
           (PostList.mk [sample_post 2 10 ["fox"] false])).
  reflexivity.
Defined.

(** X2.  Once the pages are fetched and decoded, [search] raises
    [ValueError] exactly when some accumulated post both carries a
    blacklisted tag and has a total score at most the threshold, however
    many copies of it were fetched. *)
Theorem search_ValueError_iff
    server tags limit page safe blacklist score posts :
  accumulated server tags limit page safe = Ok posts ->
  (outcome (search server tags limit page safe blacklist score)
   = Raise ValueError
   <->
   exists p, In p posts /\
             blacklisted (default_blacklist blacklist) p = true /\
             Score.total (Post.score p) <= score).
Proof.
  intros Hacc. rewrite search_outcome, Hacc. simpl. rewrite filter_posts_eq.
  split.
  - destruct (existsb _ posts) eqn:E; [| discriminate]. intros _.
    apply existsb_exists in E. destruct E as [p [Hp E]].
    apply andb_true_iff in E. destruct E as [Hb Hl].
    exists p. repeat split; [exact Hp | exact Hb |]. now apply Z.leb_le.
  - intros [p [Hp [Hb Hl]]].
    replace (existsb _ posts) with true; [reflexivity |].
    symmetry. apply existsb_exists. exists p. split; [exact Hp |].
    unfold low. rewrite Hb. now apply Z.leb_le.
Qed.

Lemma search_ValueError_iff_witness :
  outcome (search (serve_posts [sample_post 1 (-20) ["gore"] false])
             ["fox"] 500 1 false (Some ["gore"]) (-10))
  = Raise ValueError
  <->
  exists p, In p [sample_post 1 (-20) ["gore"] false;
                  sample_post 1 (-20) ["gore"] false] /\
            blacklisted (default_blacklist (Some ["gore"])) p = true /\
            Score.total (Post.score p) <= -10.
Proof.
  apply (search_ValueError_iff
           (serve_posts [sample_post 1 (-20) ["gore"] false])
           ["fox"] 500 1 false (Some ["gore"]) (-10)).
  reflexivity.
Defined.

(** X4.  Every request of [search] goes to the host the [safe] flag
    selects, e926.net when it is set and e621.net when it is not, and
    carries the tags joined by spaces. *)
Theorem search_requests_host
    server tags limit page (safe : bool) blacklist score :
  Forall
    (fun req =>
       exists limit' page',
         req = [Fmt (VStr (if safe then "https://e926.net/"
                           else "https://e621.net/"));
                Lit "posts.json?";
                UrlEncode [("tags", VStr (String.concat " " tags));
                           ("limit", VInt limit'); ("page", VInt page')]])
    (requests (events (search server tags limit page safe blacklist score))).
Proof.
  destruct (requests_search server tags limit page safe blacklist score)
    as [n ->].
  apply Forall_forall. intros req Hin. apply in_map_iff in Hin.
  destruct Hin as [k [<- _]].
  exists (limit - 320 * Z.of_nat k), (page + Z.of_nat k).
  unfold page_request, base_url. now destruct safe.
Qed.

(** X5.  An entry that does not decode as a post does not stop the
    pagination: when every page is answered and one of them holds such an
    entry, [search] issues all its page calls and then raises. *)
Theorem search_undecodable server tags limit page safe blacklist score k :
  limit > 0 ->
  (forall j, (j < pages limit)%nat ->
     answers_page
       (server (page_request tags (base_url safe)
                  (limit - 320 * Z.of_nat j) (page + Z.of_nat j)))) ->
  (k < pages limit)%nat ->
  In None
    (page_posts
       (server (page_request tags (base_url safe)
                  (limit - 320 * Z.of_nat k) (page + Z.of_nat k)))) ->
  outcome (search server tags limit page safe blacklist score)
    = Raise OtherException /\
  length (requests
            (events (search server tags limit page safe blacklist score)))
    = pages limit.
Proof.
  intros Hlimit Hok Hk Hnone. split.
  - rewrite search_outcome. unfold accumulated.
    rewrite (search_loop_answered server tags (base_url safe)
               (n := pages limit))
      by (try reflexivity; rewrite page_seq_closed; intros lp Hlp;
          apply in_map_iff in Hlp; destruct Hlp as [j [<- Hj]];
          apply Hok; now apply in_seq in Hj).
    cbn [outcome snd app]. simpl.
    rewrite from_dict_posts_undecodable; [reflexivity |].
    apply in_flat_map.
    exists (limit - 320 * Z.of_nat k, page + Z.of_nat k). split.
    + rewrite page_seq_closed. apply in_map_iff. exists k.
      split; [reflexivity |]. apply in_seq. lia.
    + exact Hnone.
  - now apply (search_page_calls server tags limit page safe blacklist score).
Qed.

Lemma search_undecodable_witness :
  outcome (search serve_undecodable ["fox"] 500 1 false None (-10))
    = Raise OtherException /\
  length (requests
            (events (search serve_undecodable ["fox"] 500 1 false None (-10))))
    = pages 500.
Proof.
  apply (search_undecodable serve_undecodable ["fox"] 500 1 false None (-10)
           1%nat).
  - lia.
  - intros j _. split; [reflexivity |]. eexists. reflexivity.
  - vm_compute. lia.
  - right. now left.
Defined.

(** ** [get_pool_images] and [pool] *)

Lemma pool_images_flat_map post_ids r :
  pool_images post_ids r =
  flat_map (fun post_id => filter (pool_match post_id) r) post_ids.
Proof. unfold pool_images. now rewrite pool_images_outer. Qed.

Lemma get_pool_images_events server pool :
  events (get_pool_images server pool) =
  events (search server [String.append "pool:" (str (Pool.id pool))]
            1280 1 false None (-5000)).
Proof.
  unfold get_pool_images. rewrite events_bind.
  destruct (outcome _); cbn; now rewrite app_nil_r.
Qed.

Lemma get_pool_images_outcome server pool :
  outcome (get_pool_images server pool) =
  (posts <- accumulated server [String.append "pool:" (str (Pool.id pool))]
              1280 1 false ;;
   ret (PostList.mk
          (pool_images (Pool.post_ids pool)
             (filter (fun p => negb (low (-5000) p)) posts)))).
Proof.
  unfold get_pool_images. rewrite outcome_bind, search_outcome.
  destruct (accumulated _ _ _ _ _) as [posts |]; [| reflexivity].
  simpl. rewrite filter_posts_eq.
  replace (existsb _ posts) with false.
  - cbn. do 3 f_equal. apply filter_ext. intros p.
    unfold keep. now rewrite blacklisted_nil.
  - symmetry. apply not_true_is_false. intros Ex.
    apply existsb_exists in Ex. destruct Ex as [p [_ Hp]].
    rewrite blacklisted_nil in Hp. discriminate.
Qed.

Lemma in_pool_images post_ids r p :
  In p (pool_images post_ids r) <->
  In p r /\ Flags.deleted (Post.flags p) = false /\
  In (Post.id p) post_ids.
Proof.
  rewrite pool_images_flat_map, in_flat_map. split.
  - intros [i [Hi Hp]]. apply filter_In in Hp. destruct Hp as [Hp Hm].
    unfold pool_match in Hm. apply andb_true_iff in Hm.
    destruct Hm as [Hd Hid]. apply negb_true_iff in Hd.
    apply Z.eqb_eq in Hid. subst i. auto.
  - intros [Hp [Hd Hi]]. exists (Post.id p). split; [exact Hi |].
    apply filter_In. split; [exact Hp |].
    unfold pool_match. now rewrite Hd, Z.eqb_refl.
Qed.

(** X6.  [get_pool_images] searches the tag [pool:<id>] on e621.net with
    a budget of 1280: when the pages are answered it issues four page
    calls, for pages 1 to 4 with limits 1280, 960, 640 and 320, each
    behind the limiter. *)
Theorem get_pool_images_requests server pool :
  let tag := [String.append "pool:" (str (Pool.id pool))] in
  let calls := [page_request tag "https://e621.net/" 1280 1;
                page_request tag "https://e621.net/" 960 2;
                page_request tag "https://e621.net/" 640 3;
                page_request tag "https://e621.net/" 320 4] in
  (forall req, In req calls -> answers_page (server req)) ->
  requests (events (get_pool_images server pool)) = calls /\
  gated (events (get_pool_images server pool)) = true.
Proof.
  intros tag calls Hok. split; [| apply gated_get_pool_images].
  rewrite get_pool_images_events, search_events.
  rewrite (search_loop_answered server tag (base_url false) (n := 4)).
  - reflexivity.
  - reflexivity.
  - intros lp Hlp. apply Hok. cbn in Hlp.
    destruct Hlp as [<- | [<- | [<- | [<- | []]]]]; cbn; auto.
Qed.

Lemma get_pool_images_requests_witness :
  requests (events (get_pool_images (serve_posts []) (sample_pool 7 [5; 3])))
  = [page_request ["pool:7"] "https://e621.net/" 1280 1;
     page_request ["pool:7"] "https://e621.net/" 960 2;
     page_request ["pool:7"] "https://e621.net/" 640 3;
     page_request ["pool:7"] "https://e621.net/" 320 4].
Proof.
  apply (get_pool_images_requests (serve_posts []) (sample_pool 7 [5; 3])).
  intros req _. split; [reflexivity | now exists []].
Defined.

(** X7.  The posts [get_pool_images] returns are exactly the fetched posts
    that are not flagged deleted, whose id is among the [post_ids] of the
    pool and whose total score is above -5000: a pool member scored -5000
    or less is left out. *)
Theorem get_pool_images_members server pool result :
  outcome (get_pool_images server pool) = Ok result ->
  exists posts,
    accumulated server [String.append "pool:" (str (Pool.id pool))]
      1280 1 false = Ok posts /\
    forall p,
      In p (PostList.posts result) <->
      In p posts /\ Flags.deleted (Post.flags p) = false /\
      In (Post.id p) (Pool.post_ids pool) /\
      -5000 < Score.total (Post.score p).
Proof.
  intros H. rewrite get_pool_images_outcome in H.
  destruct (accumulated _ _ _ _ _) as [posts |]; [| discriminate].
  simpl in H. injection H as <-. exists posts. split; [reflexivity |].
  intros p. cbn [PostList.posts]. rewrite in_pool_images, filter_In.
  unfold low. rewrite negb_true_iff, Z.leb_gt. tauto.
Qed.

Lemma get_pool_images_members_witness :
  exists posts,
    accumulated (serve_posts [sample_post 3 (-5000) [] false;
                              sample_post 5 1 [] false])
      [String.append "pool:" (str (Pool.id (sample_pool 7 [5; 3])))]
      1280 1 false = Ok posts /\
    forall p,
      In p (PostList.posts
              (PostList.mk (repeat (sample_post 5 1 [] false) 4))) <->
      In p posts /\ Flags.deleted (Post.flags p) = false /\
      In (Post.id p) (Pool.post_ids (sample_pool 7 [5; 3])) /\
      -5000 < Score.total (Post.score p).
Proof.
  apply (get_pool_images_members
           (serve_posts [sample_post 3 (-5000) [] false;
                         sample_post 5 1 [] false])
           (sample_pool 7 [5; 3])).
  reflexivity.
Defined.

Lemma count_filter (f : Post.t -> bool) r p :
  count (filter f r) p = if f p then count r p else 0%nat.
Proof.
  induction r as [| q r IH]; cbn [filter].
  - now destruct (f p).
  - destruct (f q) eqn:Eq; cbn [count_occ];
      destruct (Post.eq_dec q p) as [-> | Hne]; rewrite IH.
    + rewrite Eq. reflexivity.
    + reflexivity.
    + rewrite Eq. reflexivity.
    + reflexivity.
Qed.

(** X8.  A post that is not flagged deleted is returned as many times as
    its id occurs in [post_ids] times its copies in the search result; a
    deleted one never. *)
Theorem pool_images_count post_ids r p :
  count (pool_images post_ids r) p =
  if Flags.deleted (Post.flags p) then 0%nat
  else (count_occ Z.eq_dec post_ids (Post.id p) * count r p)%nat.
Proof.
  rewrite pool_images_flat_map.
  induction post_ids as [| i post_ids IH]; cbn [flat_map count_occ].
  - now destruct (Flags.deleted (Post.flags p)).
  - rewrite count_occ_app, IH, count_filter. unfold pool_match.
    destruct (Flags.deleted (Post.flags p)); cbn [negb andb]; [reflexivity |].
    destruct (Z.eq_dec i (Post.id p)) as [-> | Hne].
    + rewrite Z.eqb_refl. lia.
    + replace (Post.id p =? i) with false; [lia |].
      symmetry. apply Z.eqb_neq. congruence.
Qed.

Lemma filter_nil_existsb (f : Post.t -> bool) r :
  existsb f r = negb (match filter f r with [] => true | _ => false end).
Proof.
  induction r as [| q r IH]; cbn; [reflexivity |].
  destruct (f q); [reflexivity | exact IH].
Qed.

(** X9.  When no id is shared by two posts of the search result that are
    not flagged deleted, the ids of the posts returned are the [post_ids]
    of the pool, in their order, without those that have no such post. *)
Theorem pool_images_ids post_ids r :
  (forall post_id, (length (filter (pool_match post_id) r) <= 1)%nat) ->
  map Post.id (pool_images post_ids r) =
  filter (fun post_id => existsb (pool_match post_id) r) post_ids.
Proof.
  intros Huniq. rewrite pool_images_flat_map.
  induction post_ids as [| i post_ids IH]; cbn [flat_map filter map];
    [reflexivity |].
  rewrite map_app, IH, filter_nil_existsb.
  specialize (Huniq i).
  destruct (filter (pool_match i) r) as [| p [| q l]] eqn:E; cbn in *.
  - reflexivity.
  - assert (Hp : In p (filter (pool_match i) r)) by (rewrite E; now left).
    apply filter_In in Hp. destruct Hp as [_ Hm]. unfold pool_match in Hm.
    apply andb_true_iff in Hm. destruct Hm as [_ Hid].
    apply Z.eqb_eq in Hid. now rewrite Hid.
  - lia.
Qed.

Lemma pool_images_ids_witness :
  map Post.id
    (pool_images [5; 3; 9]
       [sample_post 3 0 [] false; sample_post 5 0 [] true;
        sample_post 9 0 [] false])
  = filter
      (fun post_id =>
         existsb (pool_match post_id)
           [sample_post 3 0 [] false; sample_post 5 0 [] true;
            sample_post 9 0 [] false])
      [5; 3; 9].
Proof.
  apply (pool_images_ids [5; 3; 9]
           [sample_post 3 0 [] false; sample_post 5 0 [] true;
            sample_post 9 0 [] false]).
  intros post_id. unfold pool_match. cbn -[Z.eqb].
  destruct (Z.eqb_spec 3 post_id) as [H3 | H3],
           (Z.eqb_spec 9 post_id) as [H9 | H9]; cbn; lia.
Defined.

(** X10.  What [pool] returns is the first pool of the answer with its
    [posts] filled by [get_pool_images] and nothing else changed; the
    posts it holds are not flagged deleted and have their ids among its
    [post_ids]. *)
Theorem pool_result server pool_id result :
  let req := [Lit "https://e621.net/pools.json/?";
              UrlEncode [("commit", VStr "search");
                         ("search[id]", VInt pool_id)]] in
  outcome (pool server pool_id) = Ok result ->
  status (server req) = 200 /\
  exists first rest l,
    data (server req) = JsonPools (Some first :: rest) /\
    outcome (get_pool_images server first) = Ok l /\
    result = Pool.set_posts first (PostList.posts l) /\
    Pool.id result = Pool.id first /\
    Pool.post_ids result = Pool.post_ids first /\
    (forall p, In p (Pool.posts result) ->
       In (Post.id p) (Pool.post_ids result) /\
       Flags.deleted (Post.flags p) = false).
Proof.
  intros req. unfold pool. fold req. rewrite outcome_bind.
  cbn [request outcome snd].
  destruct (status (server req) =? 200) eqn:Est; cbn [negb].
  2: { rewrite raise_E621Error_eq. discriminate. }
  apply Z.eqb_eq in Est.
  destruct (data (server req)) as [| | | [| [first |] rest] | |];
    try discriminate.
  rewrite outcome_bind.
  destruct (outcome (get_pool_images server first)) as [l |] eqn:El;
    [| discriminate].
  intros [= <-]. split; [exact Est |].
  exists first, rest, l.
  split; [reflexivity |]. split; [exact El |]. split; [reflexivity |].
  split; [reflexivity |]. split; [reflexivity |].
  intros p Hp. cbn [Pool.set_posts Pool.posts Pool.post_ids] in *.
  rewrite get_pool_images_outcome in El.
  destruct (accumulated _ _ _ _ _) as [posts |]; [| discriminate].
  simpl in El. injection El as <-. cbn [PostList.posts] in Hp.
  apply in_pool_images in Hp. tauto.
Qed.

Lemma pool_result_witness :
  status (serve_pool (sample_pool 7 [5; 3]) [sample_post 3 1 [] false]
            [Lit "https://e621.net/pools.json/?";
             UrlEncode [("commit", VStr "search"); ("search[id]", VInt 7)]])
  = 200.
Proof.
  apply (pool_result (serve_pool (sample_pool 7 [5; 3])
                        [sample_post 3 1 [] false])
           7
           (Pool.set_posts (sample_pool 7 [5; 3])
              (repeat (sample_post 3 1 [] false) 4))).
  reflexivity.
Defined.

(** X11.  When the answer has status 200 but does not start with a pool
    that decodes (an empty list when no pool has the id), [pool] raises
    after its single request: no search is made and no [E621Error] is
    raised. *)
Theorem pool_not_found server pool_id :
  let req := [Lit "https://e621.net/pools.json/?";
              UrlEncode [("commit", VStr "search");
                         ("search[id]", VInt pool_id)]] in
  status (server req) = 200 ->
  (forall first rest, data (server req) <> JsonPools (Some first :: rest)) ->
  pool server pool_id = ([Network req (server req)], Raise OtherException).
Proof.
  intros req Hst Hdata. unfold pool. fold req. cbn [request bind Monad_M].
  rewrite Hst. cbn [Z.eqb Pos.eqb negb].
  destruct (data (server req)) as [| | | [| [first |] rest] | |];
    try reflexivity.
  now destruct (Hdata first rest).
Qed.

Lemma pool_not_found_witness :
  pool (fun _ => mkResponse 200 (JsonPools [])) 7 =
  ([Network [Lit "https://e621.net/pools.json/?";
             UrlEncode [("commit", VStr "search"); ("search[id]", VInt 7)]]
      (mkResponse 200 (JsonPools []))],
   Raise OtherException).
Proof.
  apply (pool_not_found (fun _ => mkResponse 200 (JsonPools [])) 7).
  - reflexivity.
  - discriminate.
Defined.

(** ** [pool_search] *)

Lemma from_dict_pools_ok raw pools :
  from_dict_pools raw = Ok pools <-> raw = map Some pools.
Proof.
  revert pools. induction raw as [| [p |] raw IH]; intros pools; simpl.
  - split.
    + intros [= <-]. reflexivity.
    + destruct pools; [reflexivity | discriminate].
  - destruct (from_dict_pools raw) as [ps |] eqn:E.
    + split.
      * intros [= <-]. cbn. f_equal. now apply IH.
      * destruct pools as [| q pools]; [discriminate |].
        intros [= -> Hraw]. apply IH in Hraw. congruence.
    + split; [discriminate |].
      destruct pools as [| q pools]; [discriminate |].
      intros [= -> Hraw]. apply IH in Hraw. discriminate.
  - split; [discriminate |]. destruct pools; discriminate.
Qed.

(** X12.  [pool_search] passes the limiter and issues one request, nothing
    else; it returns the pools of the answer as they decode, in order and
    with no posts fetched for them, exactly when the status is 200 and
    every entry of the list decodes. *)
Theorem pool_search_result server query :
  let req := [Lit "https://e621.net/pools.json/?";
              UrlEncode [("commit", VStr "search");
                         ("search[name_matches]", VStr query)]] in
  events (pool_search server query) = [Acquire; Network req (server req)] /\
  (forall pools,
      outcome (pool_search server query) = Ok pools <->
      status (server req) = 200 /\
      data (server req) = JsonPools (map Some pools)).
Proof.
  intros req. unfold pool_search. fold req. cbn [api_limiter request bind
    Monad_M app events outcome fst snd].
  destruct (status (server req) =? 200) eqn:Est; cbn [negb].
  - apply Z.eqb_eq in Est.
    destruct (data (server req)) as [| | | raw | |]; cbn;
      try (split; [reflexivity |]; intros pools; split;
           [discriminate | intros [_ H]; discriminate H]).
    split; [reflexivity |]. intros pools.
    rewrite from_dict_pools_ok. split.
    + intros ->. auto.
    + intros [_ [= ->]]. reflexivity.
  - apply Z.eqb_neq in Est. rewrite raise_E621Error_eq. cbn.
    split; [reflexivity |]. intros pools.
    split; [discriminate | intros [H _]; contradiction].
Qed.

(** ** [File.link] and [Post.download] *)

Lemma append_assoc (a b c : string) :
  String.append (String.append a b) c = String.append a (String.append b c).
Proof. induction a as [| ch a IH]; cbn; [reflexivity | now rewrite IH]. Qed.

Lemma append_empty_r (a : string) : String.append a "" = a.
Proof. induction a as [| ch a IH]; cbn; [reflexivity | now rewrite IH]. Qed.

(** X13.  [File.link] is the url whenever the url is not empty; it is
    [None] exactly when there is no url and the md5 or the extension is
    empty; and it is never an empty string, so that testing it for truth
    tests it against [None]. *)
Theorem File_link_spec f :
  (truthy (File.url f) = true -> File_link f = File.url f) /\
  (File_link f = None <->
   truthy (File.url f) = false /\ (File.md5 f = "" \/ File.ext f = "")) /\
  (forall s, File_link f = Some s -> s <> "") /\
  (truthy (File_link f) = false <-> File_link f = None).
Proof.
  assert (Hne : forall s, File_link f = Some s -> s <> "").
  { unfold File_link. intros s.
    destruct (truthy (File.url f)) eqn:Et.
    - intros H. rewrite H in Et. cbn in Et. intros ->. discriminate.
    - destruct (negb _ && negb _); [| discriminate].
      intros [= <-]. discriminate. }
  split; [| split; [| split; [exact Hne |]]].
  - unfold File_link. now intros ->.
  - unfold File_link. destruct (truthy (File.url f)) eqn:Et.
    + split; [| intros [H _]; discriminate].
      intros H. rewrite H in Et. discriminate.
    + destruct (String.eqb_spec (File.md5 f) ""),
               (String.eqb_spec (File.ext f) ""); cbn;
        split; auto; try discriminate.
      intros [_ [H | H]]; contradiction.
  - split.
    + destruct (File_link f) as [s |] eqn:E; [| reflexivity].
      cbn. intros H. apply negb_false_iff, String.eqb_eq in H.
      now destruct (Hne s eq_refl).
    + now intros ->.
Qed.

Lemma File_link_spec_witness :
  File_link (File.mk 10 10 (Some "https://static1.e621.net/data/a.png") "png"
               0 "" false)
  = Some "https://static1.e621.net/data/a.png".
Proof.
  apply (File_link_spec
           (File.mk 10 10 (Some "https://static1.e621.net/data/a.png") "png"
              0 "" false)).
  reflexivity.
Defined.

Lemma str_split_nonempty sep s : str_split sep s <> [].
Proof.
  destruct s as [| c s]; cbn; [discriminate |].
  destruct (Ascii.eqb c sep); [discriminate |].
  destruct (str_split sep s); discriminate.
Qed.

Lemma str_split_join sep s :
  String.concat (String sep "") (str_split sep s) = s.
Proof.
  induction s as [| c s IH]; [reflexivity |]. cbn [str_split].
  pose proof (str_split_nonempty sep s) as Hne.
  destruct (Ascii.eqb_spec c sep) as [-> | Hc].
  - destruct (str_split sep s) as [| piece pieces]; [contradiction |].
    cbn [String.concat String.append]. cbn in IH. now rewrite IH.
  - destruct (str_split sep s) as [| piece [| piece' pieces]];
      [contradiction | |]; cbn in *; now rewrite IH.
Qed.

Lemma str_split_pieces sep s :
  Forall (fun piece => ~ In sep (list_ascii_of_string piece))
    (str_split sep s).
Proof.
  induction s as [| c s IH]; cbn [str_split].
  - repeat constructor. intros [].
  - destruct (Ascii.eqb_spec c sep) as [-> | Hc].
    + constructor; [intros [] | exact IH].
    + destruct (str_split sep s) as [| piece pieces];
        [repeat constructor; cbn; intuition congruence |].
      inversion IH as [| ? ? Hpiece Hpieces]; subst.
      constructor; [| exact Hpieces]. cbn. intuition congruence.
Qed.

Lemma concat_last sep l :
  l <> [] ->
  exists prefix, String.concat sep l = String.append prefix (last l "").
Proof.
  induction l as [| x [| y l] IH]; intros Hne.
  - contradiction.
  - now exists "".
  - destruct IH as [prefix Hp]; [discriminate |].
    exists (String.append x (String.append sep prefix)).
    change (String.concat sep (x :: y :: l)) with
      (String.append x (String.append sep (String.concat sep (y :: l)))).
    change (last (x :: y :: l) "") with (last (y :: l) "").
    now rewrite Hp, !append_assoc.
Qed.

Lemma last_in (l : list string) : l <> [] -> In (last l "") l.
Proof.
  induction l as [| x [| y l] IH]; intros Hne.
  - contradiction.
  - now left.
  - right. apply IH. discriminate.
Qed.

(** X14.  On a post whose file has a url, [download] fetches that url and
    nothing else; on status 200 it returns the body in a buffer named
    after the last path segment of the url (the url ends with the name and
    the name holds no slash), on another status it raises with it. *)
Theorem download_with_url fetch p url :
  File.url (Post.file p) = Some url -> url <> "" ->
  let name := last (str_split "/"%char url) "" in
  Post_download fetch p =
    ([url],
     if fst (fetch url) =? 200 then inl (mkBytesIO name (snd (fetch url)))
     else inr (BadStatus (fst (fetch url)))) /\
  (exists prefix, url = String.append prefix name) /\
  ~ In "/"%char (list_ascii_of_string name).
Proof.
  intros Hurl Hne name. split; [| split].
  - assert (Ht : truthy (Some url) = true)
      by (cbn; now apply negb_true_iff, String.eqb_neq).
    unfold Post_download, File_link. rewrite Hurl, Ht. cbv zeta.
    rewrite Ht. cbn [negb].
    destruct (fst (fetch url) =? 200); reflexivity.
  - destruct (concat_last (String "/"%char "") (str_split "/"%char url)
                (str_split_nonempty _ _)) as [prefix Hp].
    rewrite str_split_join in Hp. now exists prefix.
  - pose proof (str_split_pieces "/"%char url) as Hall.
    rewrite Forall_forall in Hall. apply Hall, last_in, str_split_nonempty.
Qed.

Lemma download_with_url_witness :
  Post_download (fun _ => (200, []))
    (Post.mk 1 "" "" (File.mk 1 1 (Some "https://s/data/ab/cd/abcd.png") "png"
                        0 "abcd" false)
       sample_file sample_file (Score.mk 0 0 0)
       (Tags.mk [] [] [] [] [] [] [] []) [] 0
       (Flags.mk false false false false false false) "s" 0 [] []
       (Relationships.mk None false false []) None 0 "" 0 false false
       DurationNone)
  = (["https://s/data/ab/cd/abcd.png"], inl (mkBytesIO "abcd.png" [])).
Proof.
  apply (download_with_url (fun _ => (200, []))
           (Post.mk 1 "" "" (File.mk 1 1 (Some "https://s/data/ab/cd/abcd.png")
                               "png" 0 "abcd" false)
              sample_file sample_file (Score.mk 0 0 0)
              (Tags.mk [] [] [] [] [] [] [] []) [] 0
              (Flags.mk false false false false false false) "s" 0 [] []
              (Relationships.mk None false false []) None 0 "" 0 false false
              DurationNone)
           "https://s/data/ab/cd/abcd.png").
  - reflexivity.
  - discriminate.
Defined.

(** X15.  On a post whose file has no url [download] never returns a
    buffer: even when the address can be built from the md5 and the
    extension and is answered with status 200, the name cannot be taken
    from the missing url and the call raises after the fetch. *)
Theorem download_without_url fetch p :
  File.url (Post.file p) = None ->
  (forall buffer, snd (Post_download fetch p) <> inl buffer) /\
  (forall address,
      File_link (Post.file p) = Some address ->
      fst (fetch address) = 200 ->
      Post_download fetch p = ([address], inr NoneHasNoSplit)).
Proof.
  intros Hurl. split.
  - intros buffer. unfold Post_download. rewrite Hurl.
    destruct (truthy (File_link (Post.file p))); cbn [negb];
      [| discriminate].
    destruct (File_link (Post.file p)) as [address |]; [| discriminate].
    destruct (fst (fetch address) =? 200); discriminate.
  - intros address Hlink Hst.
    assert (Ht : truthy (Some address) = true).
    { cbn. apply negb_true_iff, String.eqb_neq. intros ->.
      unfold File_link in Hlink. rewrite Hurl in Hlink. cbn in Hlink.
      destruct (negb _ && negb _); discriminate. }
    unfold Post_download. rewrite Hlink, Hurl. cbv zeta.
    now rewrite Ht, Hst.
Qed.

Lemma download_without_url_witness :
  Post_download (fun _ => (200, []))
    (Post.mk 1 "" "" (File.mk 1 1 None "png" 0 "abcd" false)
       sample_file sample_file (Score.mk 0 0 0)
       (Tags.mk [] [] [] [] [] [] [] []) [] 0
       (Flags.mk false false false false false false) "s" 0 [] []
       (Relationships.mk None false false []) None 0 "" 0 false false
       DurationNone)
  = (["https://static1.e621.net/data/ab/cd/abcd.png"], inr NoneHasNoSplit).
Proof.
  apply (download_without_url (fun _ => (200, []))
           (Post.mk 1 "" "" (File.mk 1 1 None "png" 0 "abcd" false)
              sample_file sample_file (Score.mk 0 0 0)
              (Tags.mk [] [] [] [] [] [] [] []) [] 0
              (Flags.mk false false false false false false) "s" 0 [] []
              (Relationships.mk None false false []) None 0 "" 0 false false
              DurationNone)); reflexivity.
Defined.

(** ** [Tag.category_name] *)

(** X16.  [category_name] is "Unknown" exactly for the categories outside
    the table (2 among them), and inside the table different categories
    have different names. *)
Theorem category_name_spec t1 t2 :
  (Tag.category_name t1 = "Unknown" <->
   ~ In (Tag.category t1) [0; 1; 3; 4; 5; 6; 7; 8]) /\
  (In (Tag.category t1) [0; 1; 3; 4; 5; 6; 7; 8] ->
   Tag.category_name t1 = Tag.category_name t2 ->
   Tag.category t1 = Tag.category t2).
Proof.
  unfold Tag.category_name, Tag.categories.
  generalize (Tag.category t1) (Tag.category t2). intros c1 c2.
  cbn [find fst snd In].
  split.
  - repeat match goal with
           | |- context [?k =? c1] => destruct (Z.eqb_spec k c1)
           end;
      split; intros H; try discriminate H; try reflexivity;
      try (exfalso; apply H; tauto); intuition congruence.
  - intros H1.
    repeat match goal with
           | |- context [?k =? c2] => destruct (Z.eqb_spec k c2)
           end;
      repeat match goal with
             | |- context [?k =? c1] => destruct (Z.eqb_spec k c1)
             end;
      intros H; try discriminate H; try congruence;
      exfalso; intuition congruence.
Qed.

Lemma category_name_spec_witness :
  Tag.category (Tag.mk 1 "fox" 0 [] "" 5 false "" "") =
  Tag.category (Tag.mk 2 "wolf" 0 [] "" 5 true "" "").
Proof.
  apply (category_name_spec (Tag.mk 1 "fox" 0 [] "" 5 false "" "")
           (Tag.mk 2 "wolf" 0 [] "" 5 true "" "")).
  - cbn. tauto.
  - reflexivity.
Defined.

(** ** [Post.link] and [post] *)

(** X17.  [post] passes the limiter and issues one request, whose URL is
    the link of the post asked for followed by ".json"; it returns a post
    exactly when the status is 200 and the body holds a post that
    decodes. *)
Theorem post_request_link server p :
  exists req,
    events (post server (Post.id p)) = [Acquire; Network req (server req)] /\
    render req = Some (String.append (Post_link p) ".json") /\
    (forall q,
        outcome (post server (Post.id p)) = Ok q <->
        status (server req) = 200 /\ data (server req) = JsonPost (Some q)).
Proof.
  exists [Lit "https://e621.net/posts/"; Fmt (VInt (Post.id p)); Lit ".json"].
  set (req := [Lit _; _; _]).
  split; [| split].
  - unfold post. fold req. cbn [api_limiter request bind Monad_M app].
    destruct (negb _); [now rewrite raise_E621Error_eq |].
    destruct (data (server req)) as [| [q |] | | | |]; reflexivity.
  - unfold req, Post_link. cbn [render option_map].
    now rewrite append_empty_r, append_assoc.
  - intros q. unfold post. fold req.
    cbn [api_limiter request bind Monad_M app outcome snd].
    destruct (Z.eqb_spec (status (server req)) 200) as [Hst | Hst];
      cbn [negb].
    + destruct (data (server req)) as [| [q' |] | | | |]; cbn;
        split; try discriminate; try (intros [_ H]; discriminate H).
      * intros [= ->]. auto.
      * intros [_ [= ->]]. reflexivity.
    + rewrite raise_E621Error_eq. cbn.
      split; [discriminate | intros [H _]; contradiction].
Qed.

(** ** The session *)

(** X18.  The class keeps one instance: every construction returns the
    object the first one made, with the credentials and headers of the
    first, whatever is passed later; a construction never resets
    [last_search]. *)
Theorem new_singleton args :
  (forall username api_key,
      Forall (fun e621 => e621 = ESix.init username api_key)
        (ESix.constructions None ((username, api_key) :: args))) /\
  (forall e621,
      Forall (fun e621' => e621' = e621)
        (ESix.constructions (Some e621) args)).
Proof.
  assert (H : forall e621,
             Forall (fun e621' => e621' = e621)
               (ESix.constructions (Some e621) args)).
  { intros e621. induction args as [| [u k] args IH]; cbn.
    - constructor.
    - constructor; [reflexivity | exact IH]. }
  split; [| exact H].
  intros username api_key. cbn. constructor; [reflexivity | apply H].
Qed.

Lemma wait_run last pre now rest :
  Forall (fun reading => reading < last + 500000) pre ->
  last + 500000 <= now ->
  ESix.wait last (pre ++ now :: rest) = Some (length pre, rest).
Proof.
  intros Hpre Hnow. induction Hpre as [| r pre Hr _ IH]; cbn.
  - replace (last + 500000 >? now) with false; [reflexivity |].
    symmetry. rewrite Z.gtb_ltb. now apply Z.ltb_ge.
  - replace (last + 500000 >? r) with true; [now rewrite IH |].
    symmetry. rewrite Z.gtb_ltb. now apply Z.ltb_lt.
Qed.

Lemma wait_inv last clock n rest :
  ESix.wait last clock = Some (n, rest) ->
  exists pre now,
    clock = pre ++ now :: rest /\ length pre = n /\
    Forall (fun reading => reading < last + 500000) pre /\
    last + 500000 <= now.
Proof.
  revert n. induction clock as [| r clock IH]; intros n; cbn;
    [discriminate |].
  destruct (last + 500000 >? r) eqn:E.
  - destruct (ESix.wait last clock) as [[m rest'] |]; [| discriminate].
    cbn. intros [= <- <-].
    destruct (IH m eq_refl) as (pre & now & -> & <- & Hpre & Hnow).
    exists (r :: pre), now. repeat split; [| exact Hnow].
    constructor; [| exact Hpre]. rewrite Z.gtb_ltb in E.
    now apply Z.ltb_lt in E.
  - intros [= <- <-]. exists [], r. repeat split; [constructor |].
    rewrite Z.gtb_ltb in E. now apply Z.ltb_ge in E.
Qed.

(** X19.  In one thread [api_limiter] sleeps once for each reading of the
    clock that is less than half a second after [last_search], not at all
    when the first reading is later, and then stamps [last_search] with
    the reading that follows the one that let it through; the other
    attributes stay. *)
Theorem api_limiter_run self pre now stamp rest :
  Forall (fun reading => reading < ESix.last_search self + 500000) pre ->
  ESix.last_search self + 500000 <= now ->
  ESix.api_limiter self (pre ++ now :: stamp :: rest) =
  Some (ESix.set_last_search self stamp, length pre, rest) /\
  ESix.username (ESix.set_last_search self stamp) = ESix.username self /\
  ESix.api_key (ESix.set_last_search self stamp) = ESix.api_key self.
Proof.
  intros Hpre Hnow. unfold ESix.api_limiter.
  rewrite (wait_run _ _ _ _ Hpre Hnow). repeat split.
Qed.

Lemma api_limiter_run_witness :
  ESix.api_limiter (ESix.set_last_search (ESix.init "user" "key") 1000000)
    ([1200000; 1400000] ++ 1500000 :: 1500050 :: [])
  = Some (ESix.set_last_search
            (ESix.set_last_search (ESix.init "user" "key") 1000000) 1500050,
          length [1200000; 1400000], []).
Proof.
  apply (api_limiter_run
           (ESix.set_last_search (ESix.init "user" "key") 1000000)
           [1200000; 1400000] 1500000 1500050 []).
  - repeat constructor.
  - cbn. lia.
Defined.

Lemma api_limiter_sorted self clock self' n clock' :
  StronglySorted Z.le clock ->
  ESix.api_limiter self clock = Some (self', n, clock') ->
  ESix.last_search self + 500000 <= ESix.last_search self' /\
  StronglySorted Z.le clock'.
Proof.
  intros Hs H. unfold ESix.api_limiter in H.
  destruct (ESix.wait (ESix.last_search self) clock) as [[m rest] |] eqn:Ew;
    [| discriminate].
  destruct rest as [| stamp rest]; [discriminate |].
  injection H as <- <- <-.
  destruct (wait_inv _ _ _ _ Ew) as (pre & now & -> & _ & _ & Hnow).
  assert (Hs' : StronglySorted Z.le (now :: stamp :: rest)).
  { clear -Hs. induction pre as [| r pre IH]; [exact Hs |].
    apply IH. now inversion Hs. }
  inversion Hs' as [| ? ? Hrest Hall]; subst.
  inversion Hall as [| ? ? Hle _]; subst.
  split; [cbn; lia |]. now inversion Hrest.
Qed.

(** X20.  When the readings of the clock never decrease, the stamps that
    passages of one thread leave one after the other are at least half a
    second apart, the first of them at least half a second after the
    [last_search] they started from. *)
Theorem stamps_spaced n self clock l :
  Sorted Z.le clock ->
  ESix.stamps n self clock = Some l ->
  Sorted (fun a b => a + 500000 <= b) (ESix.last_search self :: l).
Proof.
  intros Hs. apply Sorted_StronglySorted in Hs;
    [| intros a b c; apply Z.le_trans].
  revert self clock l Hs.
  induction n as [| n IH]; intros self clock l Hs; cbn.
  - intros [= <-]. repeat constructor.
  - destruct (ESix.api_limiter self clock) as [[[self' m] clock'] |] eqn:E;
      [| discriminate].
    destruct (ESix.stamps n self' clock') as [l' |] eqn:El; [| discriminate].
    cbn. intros [= <-].
    destruct (api_limiter_sorted _ _ _ _ _ Hs E) as [Hgap Hs'].
    constructor; [now apply (IH self' clock') | now constructor].
Qed.

Lemma stamps_spaced_witness :
  Sorted (fun a b => a + 500000 <= b)
    (ESix.last_search (ESix.init "user" "key") :: [600010; 1100020]).
Proof.
  apply (stamps_spaced 2 (ESix.init "user" "key")
           [600000; 600010; 900000; 1100010; 1100020]).
  - repeat constructor; lia.
  - reflexivity.
Defined.

(** ** [wiki] with a query *)

(** X21.  With a query that is not empty (nor the integer 0) [wiki] passes
    the limiter and issues one request, to the wiki page named by the text
    of the query; it returns a page exactly when the status is 200 and the
    body decodes as one. *)
Theorem wiki_result server query :
  falsy query = false ->
  let req := [Lit "https://e621.net/wiki_pages/"; Fmt query; Lit ".json"] in
  events (wiki server query) = [Acquire; Network req (server req)] /\
  render req =
    Some (String.append "https://e621.net/wiki_pages/"
            (String.append
               (match query with VStr s => s | VInt z => str z end)
               ".json")) /\
  (forall w,
      outcome (wiki server query) = Ok w <->
      status (server req) = 200 /\ data (server req) = JsonWiki w).
Proof.
  intros Hq req. split; [| split].
  - unfold wiki. rewrite Hq. fold req.
    cbn [api_limiter request bind Monad_M app].
    destruct (negb _); [now rewrite raise_E621Error_eq |].
    destruct (data (server req)); reflexivity.
  - unfold req. destruct query; cbn [render option_map];
      now rewrite append_empty_r.
  - intros w. unfold wiki. rewrite Hq. fold req.
    cbn [api_limiter request bind Monad_M app outcome snd].
    destruct (Z.eqb_spec (status (server req)) 200) as [Hst | Hst];
      cbn [negb].
    + destruct (data (server req)); cbn;
        split; try discriminate; try (intros [_ H]; discriminate H).
      * intros [= ->]. auto.
      * intros [_ [= ->]]. reflexivity.
    + rewrite raise_E621Error_eq. cbn.
      split; [discriminate | intros [H _]; contradiction].
Qed.

Lemma wiki_result_witness :
  render [Lit "https://e621.net/wiki_pages/"; Fmt (VInt 42); Lit ".json"] =
  Some "https://e621.net/wiki_pages/42.json".
Proof.
  apply (wiki_result (serve_posts []) (VInt 42)). reflexivity.
Defined.

(** ** The pages of [search] in order *)

(** X22.  When every page is answered with posts that decode, the posts
    [search] filters are those of the pages one after the other, page by
    page and in the order of each page. *)
Theorem search_accumulates server tags limit page safe content :
  (forall k, (k < pages limit)%nat ->
     let r := server (page_request tags (base_url safe)
                        (limit - 320 * Z.of_nat k) (page + Z.of_nat k)) in
     status r = 200 /\ data r = JsonPosts (map Some (content k))) ->
  accumulated server tags limit page safe =
  Ok (flat_map content (seq 0 (pages limit))).
Proof.
  intros Hok. unfold accumulated.
  rewrite (search_loop_answered server tags (base_url safe)
             (n := pages limit)).
  - cbn [outcome snd app]. simpl.
    rewrite page_seq_closed.
    replace (flat_map _ _) with
      (map Some (flat_map content (seq 0 (pages limit))));
      [apply from_dict_posts_decoded |].
    assert (H : forall l, (forall k, In k l -> (k < pages limit)%nat) ->
      map Some (flat_map content l) =
      flat_map (page_result server tags (base_url safe))
        (map (fun k => (limit - 320 * Z.of_nat k, page + Z.of_nat k)) l)).
    { induction l as [| k l IH]; intros Hl; [reflexivity |].
      cbn [flat_map map]. rewrite map_app, IH by (intros; apply Hl; now right).
      f_equal. unfold page_result, page_posts. cbn [fst snd].
      destruct (Hok k (Hl k (or_introl eq_refl))) as [_ ->]. reflexivity. }
    apply H. intros k Hk. now apply in_seq in Hk.
  - reflexivity.
  - rewrite page_seq_closed. intros lp Hlp. apply in_map_iff in Hlp.
    destruct Hlp as [k [<- Hk]]. apply in_seq in Hk.
    destruct (Hok k) as [Hst Hdata]; [lia |].
    split; [exact Hst | eexists; exact Hdata].
Qed.

Lemma search_accumulates_witness :
  accumulated second_page_posts ["fox"] 500 1 false =
  Ok (flat_map (fun k => [sample_post (Z.of_nat k) 10 [] false])
        (seq 0 (pages 500))).
Proof.
  apply (search_accumulates second_page_posts ["fox"] 500 1 false
           (fun k => [sample_post (Z.of_nat k) 10 [] false])).
  intros k Hk. assert (k = 0 \/ k = 1)%nat as [-> | ->]
    by (vm_compute in Hk; lia); split; reflexivity.
Defined.
